(** * The game-state store of [my_agent/agent.py]

    A shallow embedding of the persistence layer of the tabletop-game
    facilitator: the JSON document kept in [gamestate.json], the loader with
    its fallback to a default record, and the five mutating tools
    ([initialize_player], [add_to_inventory], [start_combat], [apply_damage],
    [end_combat]) together with the read-only [read_gamestate].

    The Python code works on untyped dictionaries, so the model keeps them
    untyped: a state is a JSON value, a dictionary is a finite map from
    strings, and every subscript, method call and subtraction may raise the
    exception Python raises there.  The backing file and the calls of
    [json.dump] on it are the only effects; they are threaded through a small
    state-and-exception monad. *)

From stdpp Require Import gmap strings list fin_maps pretty.

Local Open Scope Z_scope.

(* ===================================================================== *)
(** ** JSON values *)
(* ===================================================================== *)

(** What [json.load] can produce.  Numbers are Python [int]s (unbounded);
    JSON numbers with a fraction or an exponent are not represented.  A
    Python [dict] compares by its key/value pairs, not by insertion order,
    which is the equality of [gmap]. *)
#[warnings="-register-all"]
Inductive json : Type :=
| JNull
| JBool (b : bool)
| JInt (n : Z)
| JStr (s : string)
| JList (l : list json)
| JObj (m : gmap string json).

(** Exceptions the tools can raise; none of them is caught by the module. *)
Inductive exn : Type :=
| KeyError (key : string)
| TypeError
| AttributeError.

Inductive outcome (A : Type) : Type :=
| Returned (a : A)
| Raised (e : exn).
Arguments Returned {A} a.
Arguments Raised {A} e.

(* ===================================================================== *)
(** ** The backing file and the effect monad *)
(* ===================================================================== *)

(** The text of [gamestate.json] matters only through [json.load]: either it
    is rejected ([JSONDecodeError], or the [IOError] of an unreadable file),
    or it parses to a value.  [json.dump] followed by [json.load] gives the
    value back; that property of the library is built into [Document]. *)
Inductive file_contents : Type :=
| Malformed
| Document (j : json).

(** [file = None] is [os.path.exists(GAMESTATE_FILE) = False]; [writes] counts
    the completed calls of [json.dump] on the file. *)
Record World : Type := mkWorld {
  file : option file_contents;
  writes : nat
}.

Definition io (A : Type) : Type := World → outcome A * World.

#[global] Instance io_ret : MRet io := λ A a w, (Returned a, w).

#[global] Instance io_bind : MBind io := λ A B f m w,
  match m w with
  | (Returned a, w') => f a w'
  | (Raised e, w') => (Raised e, w')
  end.

(** A pure step that may raise. *)
Definition lift {A} (o : outcome A) : io A := λ w, (o, w).

(* ===================================================================== *)
(** ** Python primitives on JSON values *)
(* ===================================================================== *)

(** [len(d) == 0] for a dictionary. *)
Definition dict_empty (m : gmap string json) : bool :=
  bool_decide (size m = 0%nat).

(** [bool(x)]: the test behind [not x], [if x] and [x and y]. *)
Definition truthy (j : json) : bool :=
  match j with
  | JNull => false
  | JBool b => b
  | JInt n => negb (n =? 0)
  | JStr s => negb (String.eqb s "")
  | JList l => negb (bool_decide (length l = 0%nat))
  | JObj m => negb (dict_empty m)
  end.

(** [needle in hay] on strings is a substring test. *)
Fixpoint is_substring (needle hay : string) : bool :=
  String.prefix needle hay ||
  match hay with
  | EmptyString => false
  | String _ hay' => is_substring needle hay'
  end.

Definition is_str (s : string) (j : json) : bool :=
  match j with
  | JStr s' => String.eqb s s'
  | _ => false
  end.

(** [key in container], for a string [key]. *)
Definition py_contains (key : string) (container : json) : outcome bool :=
  match container with
  | JObj m => Returned (bool_decide (is_Some (m !! key)))
  | JList l => Returned (existsb (is_str key) l)
  | JStr s => Returned (is_substring key s)
  | JNull | JBool _ | JInt _ => Raised TypeError
  end.

(** [container[key]], for a string [key]. *)
Definition py_getitem (container : json) (key : string) : outcome json :=
  match container with
  | JObj m =>
      match m !! key with
      | Some v => Returned v
      | None => Raised (KeyError key)
      end
  | _ => Raised TypeError
  end.

(** [container[key] = v]; the updated container is returned. *)
Definition py_setitem (container : json) (key : string) (v : json) : outcome json :=
  match container with
  | JObj m => Returned (JObj (<[key := v]> m))
  | _ => Raised TypeError
  end.

(** [del container[key]]. *)
Definition py_delitem (container : json) (key : string) : outcome json :=
  match container with
  | JObj m =>
      match m !! key with
      | Some _ => Returned (JObj (delete key m))
      | None => Raised (KeyError key)
      end
  | _ => Raised TypeError
  end.

(** [container.get(key, default)]: only [dict] has the method. *)
Definition py_get (container : json) (key : string) (dflt : json) : outcome json :=
  match container with
  | JObj m => Returned (default dflt (m !! key))
  | _ => Raised AttributeError
  end.

(** [d.update(other)]: the keys of [other] win. *)
Definition py_update (d : json) (other : gmap string json) : outcome json :=
  match d with
  | JObj m => Returned (JObj (other ∪ m))
  | _ => Raised AttributeError
  end.

(** [lst.extend(items)] for a list of strings; only [list] has the method. *)
Definition py_extend (lst : json) (items : list string) : outcome json :=
  match lst with
  | JList l => Returned (JList (l ++ (JStr <$> items)))
  | _ => Raised AttributeError
  end.

(** [x - damage] for an [int] damage.  [bool] is a subclass of [int]
    ([True - 3 = -2]); every other JSON value raises [TypeError]. *)
Definition py_sub (x : json) (damage : Z) : outcome Z :=
  match x with
  | JInt n => Returned (n - damage)
  | JBool b => Returned (Z.b2z b - damage)
  | _ => Raised TypeError
  end.

(** [f"{x}"] for the values that survive [py_sub]. *)
Definition py_format (x : json) : string :=
  match x with
  | JInt n => pretty n
  | JBool true => "True"
  | JBool false => "False"
  | _ => ""
  end.

(** [s.lower()].  Strings are byte strings (UTF-8); only the ASCII capitals
    change.  Outside ASCII Python lowers more characters, but none of them to
    a letter of the word the tools compare with. *)
Definition lower_ascii (c : Ascii.ascii) : Ascii.ascii :=
  let n := Ascii.nat_of_ascii c in
  if ((65 <=? n) && (n <=? 90))%nat then Ascii.ascii_of_nat (n + 32) else c.

Fixpoint lower (s : string) : string :=
  match s with
  | EmptyString => EmptyString
  | String c s' => String (lower_ascii c) (lower s')
  end.

(* ===================================================================== *)
(** ** The state store: [_load_state], [_save_state], start-up *)
(* ===================================================================== *)

Definition default_player : gmap string json :=
  list_to_map
    [("name", JStr "Unknown"); ("class", JStr "Unknown"); ("hp", JInt 0);
     ("max_hp", JInt 0); ("ac", JInt 0); ("location", JStr "Triboar Trail")].

Definition default_combat : gmap string json :=
  list_to_map
    [("active", JBool false); ("round", JInt 0);
     ("initiative_order", JList []); ("enemies", JObj ∅)].

Definition default_record : gmap string json :=
  list_to_map
    [("player", JObj default_player); ("combat", JObj default_combat);
     ("inventory", JList [])].

Definition default_state : json := JObj default_record.

(** [_load_state()].  The [try] catches [JSONDecodeError] and [IOError]
    only: a [TypeError] from ["player" not in state] escapes. *)
Definition _load_state : io json := λ w,
  match file w with
  | None => (Returned default_state, w)
  | Some Malformed => (Returned default_state, w)
  | Some (Document state) =>
      if negb (truthy state) then (Returned default_state, w)
      else match py_contains "player" state with
           | Returned true => (Returned state, w)
           | Returned false => (Returned default_state, w)
           | Raised e => (Raised e, w)
           end
  end.

(** [_save_state(state)]: overwrite the file with the dump of [state]. *)
Definition _save_state (state : json) : io unit := λ w,
  (Returned (), {| file := Some (Document state); writes := S (writes w) |}).

(** The module-level block that runs at import: create the file when it is
    absent. *)
Definition bootstrap : io unit := λ w,
  match file w with
  | None => _save_state default_state w
  | Some _ => (Returned (), w)
  end.

(* ===================================================================== *)
(** ** The tools *)
(* ===================================================================== *)

Definition read_gamestate : io json := _load_state.

(** [initialize_player].  [state['player'].update(...)] changes the player
    dictionary inside [state]; the write-back makes that explicit. *)
Definition initialize_player
    (name race char_class background : string) (max_hp ac : Z) : io string :=
  state ← _load_state;
  player ← lift (py_getitem state "player");
  player ← lift (py_update player
                   (list_to_map
                      [("name", JStr name); ("race", JStr race);
                       ("class", JStr char_class); ("background", JStr background);
                       ("hp", JInt max_hp); ("max_hp", JInt max_hp); ("ac", JInt ac)]));
  state ← lift (py_setitem state "player" player);
  _save_state state;;
  mret ("Player " +:+ name +:+ " (Race: " +:+ race +:+ ", Class: " +:+ char_class
        +:+ ") initialized with " +:+ pretty max_hp +:+ " HP and " +:+ pretty ac
        +:+ " AC.").

Definition add_to_inventory (items : list string) : io string :=
  state ← _load_state;
  current_inv ← lift (py_get state "inventory" (JList []));
  current_inv ← lift (py_extend current_inv items);
  state ← lift (py_setitem state "inventory" current_inv);
  _save_state state;;
  mret ("Added to inventory: " +:+ String.concat ", " items).

(** [start_combat].  [enemies] lists the items of the argument dictionary in
    insertion order (the order [enemies.keys()] yields); the keys of a
    dictionary are distinct. *)
Definition start_combat (enemies : list (string * Z)) : io string :=
  state ← _load_state;
  combat ← lift (py_getitem state "combat");
  combat ← lift (py_setitem combat "active" (JBool true));
  combat ← lift (py_setitem combat "enemies" (JObj (JInt <$> list_to_map enemies)));
  state ← lift (py_setitem state "combat" combat);
  _save_state state;;
  mret ("Combat started with: " +:+ String.concat ", " enemies.*1 +:+ ".").

(** In [apply_damage], [combat = state.get('combat', {})] is the dictionary
    stored in [state] when the key is there, and a fresh one otherwise: only
    in the first case do the changes made through [combat] reach [state]. *)
Definition write_back (state : json) (key : string) (obj : json) : outcome json :=
  match py_contains key state with
  | Returned true => py_setitem state key obj
  | _ => Returned state
  end.

Definition player_uninitialized_msg : string :=
  "Error: Player HP not initialized. Ask player for their max HP first.".

Definition player_damage_msg (damage : Z) (old_hp : json) (new_hp : Z) : string :=
  "Player took " +:+ pretty damage +:+ " damage. HP: " +:+ py_format old_hp
  +:+ " -> " +:+ pretty new_hp +:+ ".".

Definition enemy_died_msg (target : string) (damage : Z) : string :=
  target +:+ " took " +:+ pretty damage +:+ " damage and has died!".

Definition enemy_damage_msg (target : string) (damage : Z) (old_hp : json) (new_hp : Z)
    : string :=
  target +:+ " took " +:+ pretty damage +:+ " damage. HP: " +:+ py_format old_hp
  +:+ " -> " +:+ pretty new_hp +:+ ".".

Definition target_not_found_msg (target : string) : string :=
  "Error: Target '" +:+ target +:+ "' not found in active combat.".

Definition apply_damage (target : string) (damage : Z) : io string :=
  state ← _load_state;
  combat ← lift (py_get state "combat" (JObj ∅));
  (* 1. Handle Player Damage *)
  if String.eqb (lower target) "player" then
    player ← lift (py_getitem state "player");
    has_hp ← lift (py_contains "hp" player);
    if negb has_hp then mret player_uninitialized_msg
    else
      old_hp ← lift (py_getitem player "hp");
      new_hp ← lift (py_sub old_hp damage);
      player ← lift (py_setitem player "hp" (JInt new_hp));
      state ← lift (py_setitem state "player" player);
      _save_state state;;
      mret (player_damage_msg damage old_hp new_hp)
  else
    (* 2. Handle Enemy Damage *)
    active ← lift (py_get combat "active" JNull);
    is_enemy ← (if truthy active
                then enemies ← lift (py_get combat "enemies" (JObj ∅));
                     lift (py_contains target enemies)
                else mret false);
    if is_enemy : bool then
      enemies ← lift (py_getitem combat "enemies");
      old_hp ← lift (py_getitem enemies target);
      new_hp ← lift (py_sub old_hp damage);
      '(combat, msg) ←
        (if new_hp <=? 0 then
           enemies ← lift (py_delitem enemies target);
           combat ← lift (py_setitem combat "enemies" enemies);
           if negb (truthy enemies) then
             combat ← lift (py_setitem combat "active" (JBool false));
             mret (combat, enemy_died_msg target damage +:+ " Combat has ended.")
           else mret (combat, enemy_died_msg target damage)
         else
           enemies ← lift (py_setitem enemies target (JInt new_hp));
           combat ← lift (py_setitem combat "enemies" enemies);
           mret (combat, enemy_damage_msg target damage old_hp new_hp));
      state ← lift (write_back state "combat" combat);
      _save_state state;;
      mret msg
    else mret (target_not_found_msg target).

Definition end_combat : io string :=
  state ← _load_state;
  combat ← lift (py_getitem state "combat");
  combat ← lift (py_setitem combat "active" (JBool false));
  combat ← lift (py_setitem combat "enemies" (JObj ∅));
  state ← lift (py_setitem state "combat" combat);
  _save_state state;;
  mret "Combat ended manually.".

(* ===================================================================== *)
(** ** Sequences of tool calls *)
(* ===================================================================== *)

(** One call of a mutating tool, as the orchestrating agent issues it. *)
Inductive op : Type :=
| InitializePlayer (name race char_class background : string) (max_hp ac : Z)
| AddToInventory (items : list string)
| StartCombat (enemies : list (string * Z))
| ApplyDamage (target : string) (damage : Z)
| EndCombat.

Definition run_op (o : op) : io string :=
  match o with
  | InitializePlayer name race char_class background max_hp ac =>
      initialize_player name race char_class background max_hp ac
  | AddToInventory items => add_to_inventory items
  | StartCombat enemies => start_combat enemies
  | ApplyDamage target damage => apply_damage target damage
  | EndCombat => end_combat
  end.

(** The world after a sequence of calls; a call that raises is reported to
    the caller and the next call runs on the world it left. *)
Definition exec (ops : list op) (w : World) : World :=
  foldl (λ w o, (run_op o w).2) w ops.

(** The state a call starts from, when the load gives one. *)
Definition loaded (w : World) : option json :=
  match _load_state w with
  | (Returned state, _) => Some state
  | (Raised _, _) => None
  end.

(* ===================================================================== *)
(** ** Vocabulary for the properties *)
(* ===================================================================== *)

(** The world right after [_save_state state] ran on [w]. *)
Definition saved (state : json) (w : World) : World :=
  {| file := Some (Document state); writes := S (writes w) |}.

(** Combat is active when the flag is there and true in Python's sense. *)
Definition combat_active (c : gmap string json) : Prop :=
  ∃ a, c !! "active" = Some a ∧ truthy a = true.

(** [target] names an enemy of the encounter. *)
Definition is_enemy_key (c : gmap string json) (target : string) : Prop :=
  ∃ e, c !! "enemies" = Some (JObj e) ∧ is_Some (e !! target).

(** The [enemies] field, when present, is a mapping. *)
Definition enemies_is_dict (c : gmap string json) : Prop :=
  ∀ x, c !! "enemies" = Some x → ∃ e, x = JObj e.

(** The combat record [apply_damage] leaves when an enemy with mapping [e]
    inside the record [c] ends up with [new_hp]. *)
Definition damaged_combat (c e : gmap string json) (target : string) (new_hp : Z)
    : gmap string json :=
  if new_hp <=? 0 then
    if dict_empty (delete target e)
    then <["active" := JBool false]> (<["enemies" := JObj (delete target e)]> c)
    else <["enemies" := JObj (delete target e)]> c
  else <["enemies" := JObj (<[target := JInt new_hp]> e)]> c.

(** [saves o st st']: the call [o], started from the loaded record [st],
    writes the record [st'].  One rule per place where a tool saves. *)
Inductive saves : op → gmap string json → gmap string json → Prop :=
| saves_initialize name race char_class background max_hp ac st p :
    st !! "player" = Some (JObj p) →
    saves (InitializePlayer name race char_class background max_hp ac) st
      (<["player" :=
           JObj (list_to_map
                   [("name", JStr name); ("race", JStr race);
                    ("class", JStr char_class); ("background", JStr background);
                    ("hp", JInt max_hp); ("max_hp", JInt max_hp); ("ac", JInt ac)]
                 ∪ p)]> st)
| saves_inventory items st inv :
    default (JList []) (st !! "inventory") = JList inv →
    saves (AddToInventory items) st
      (<["inventory" := JList (inv ++ (JStr <$> items))]> st)
| saves_start enemies st c :
    st !! "combat" = Some (JObj c) →
    saves (StartCombat enemies) st
      (<["combat" := JObj (<["enemies" := JObj (JInt <$> list_to_map enemies)]>
                             (<["active" := JBool true]> c))]> st)
| saves_player_damage target damage st p old_hp new_hp :
    st !! "player" = Some (JObj p) →
    p !! "hp" = Some old_hp →
    py_sub old_hp damage = Returned new_hp →
    saves (ApplyDamage target damage) st
      (<["player" := JObj (<["hp" := JInt new_hp]> p)]> st)
| saves_enemy_damage target damage st c e old_hp new_hp :
    st !! "combat" = Some (JObj c) →
    combat_active c →
    c !! "enemies" = Some (JObj e) →
    e !! target = Some old_hp →
    py_sub old_hp damage = Returned new_hp →
    saves (ApplyDamage target damage) st
      (<["combat" := JObj (damaged_combat c e target new_hp)]> st)
| saves_end st c :
    st !! "combat" = Some (JObj c) →
    saves EndCombat st
      (<["combat" := JObj (<["enemies" := JObj ∅]> (<["active" := JBool false]> c))]> st).

(** The invariant of the combat record: a boolean flag, a mapping of
    enemies, and no enemy left when the flag is down. *)
Definition combat_invariant (state : json) : Prop :=
  ∃ st c a e,
    state = JObj st ∧ st !! "combat" = Some (JObj c) ∧
    c !! "active" = Some (JBool a) ∧ c !! "enemies" = Some (JObj e) ∧
    (a = false → e = ∅).

(** The inventory a call starts from: [state.get('inventory', [])] of the
    loaded state. *)
Definition inventory_of (w : World) : list json :=
  match loaded w with
  | Some (JObj st) =>
      match st !! "inventory" with
      | Some (JList inv) => inv
      | _ => []
      end
  | _ => []
  end.


(** An encounter with one goblin, started from the default record. *)
Definition goblin_state : gmap string json :=
  <["combat" := JObj {[ "active" := JBool true; "round" := JInt 0;
                        "initiative_order" := JList [];
                        "enemies" := JObj {[ "Goblin" := JInt 7 ]} ]}]> default_record.

(** An encounter whose one enemy is called ["player"]. *)
Definition enemy_called_player : gmap string json :=
  {[ "player" := JObj {[ "hp" := JInt 10 ]};
     "combat" := JObj {[ "active" := JBool true;
                         "enemies" := JObj {[ "player" := JInt 7 ]} ]};
     "inventory" := JList [] ]}.

(** The two tools that overwrite the flag and the enemies of the combat
    record. *)
Definition resets_combat (o : op) : Prop :=
  match o with
  | StartCombat _ | EndCombat => True
  | _ => False
  end.

(** Every listed enemy has a positive integer HP. *)
Definition enemies_alive (state : json) : Prop :=
  ∃ st c e,
    state = JObj st ∧ st !! "combat" = Some (JObj c) ∧
    c !! "enemies" = Some (JObj e) ∧
    ∀ k v, e !! k = Some v → ∃ h, v = JInt h ∧ 0 < h.

(** A call that does not start a fight with an enemy of HP zero or less. *)
Definition starts_alive (o : op) : Prop :=
  match o with
  | StartCombat enemies => Forall (λ kv, 0 < kv.2) enemies
  | _ => True
  end.

(* ===================================================================== *)
(** ** Unfolding the monad *)
(* ===================================================================== *)

Ltac io_unfold :=
  unfold mbind, io_bind, mret, io_ret, lift in *; cbn beta iota zeta in *.

Lemma bind_returned {A B} (m : io A) (k : A → io B) w a w' :
  m w = (Returned a, w') → (m ≫= k) w = k a w'.
Proof. intros H. io_unfold. by rewrite H. Qed.

Lemma bind_raised {A B} (m : io A) (k : A → io B) w e w' :
  m w = (Raised e, w') → (m ≫= k) w = (Raised e, w').
Proof. intros H. io_unfold. by rewrite H. Qed.

(* ===================================================================== *)
(** ** Facts about the store *)
(* ===================================================================== *)

Lemma truthy_obj_nonempty (m : gmap string json) k :
  is_Some (m !! k) → truthy (JObj m) = true.
Proof.
  intros [v Hv]. cbn. unfold dict_empty. rewrite bool_decide_eq_false_2; [done|].
  intros Hs. apply map_size_empty_iff in Hs. subst m. by rewrite lookup_empty in Hv.
Qed.


(** Loading never touches the world. *)
Lemma load_world w : (_load_state w).2 = w.
Proof.
  unfold _load_state. destruct (file w) as [[|state]|]; try done.
  destruct (negb (truthy state)); [done|].
  by destruct (py_contains "player" state) as [[]|].
Qed.

Lemma load_document (m : gmap string json) w :
  file w = Some (Document (JObj m)) → is_Some (m !! "player") →
  _load_state w = (Returned (JObj m), w).
Proof.
  intros Hf Hp. unfold _load_state. rewrite Hf.
  rewrite (truthy_obj_nonempty m "player") by done. cbn.
  by rewrite bool_decide_eq_true_2.
Qed.

(** What a successful load returns: the default record, or the document in
    the file when that passes both checks. *)
Lemma load_returned w state :
  (_load_state w).1 = Returned state →
  state = default_state ∨
  (file w = Some (Document state) ∧ truthy state = true
   ∧ py_contains "player" state = Returned true).
Proof.
  unfold _load_state. destruct (file w) as [[|j]|]; cbn; try (intros [= <-]; by left).
  destruct (truthy j) eqn:Ht; cbn; [|intros [= <-]; by left].
  destruct (py_contains "player" j) as [[]|] eqn:Hc; cbn; intros [= <-]; auto.
Qed.

Lemma loaded_obj_player w (st : gmap string json) :
  loaded w = Some (JObj st) → is_Some (st !! "player").
Proof.
  unfold loaded. destruct (_load_state w) as [[s|e] w'] eqn:Hl; [|done].
  intros [= ->]. destruct (load_returned w (JObj st)) as [Hd|(_ & _ & Hc)].
  - by rewrite Hl.
  - injection Hd as ->. by eexists.
  - cbn in Hc. injection Hc as Hc. by apply bool_decide_eq_true in Hc.
Qed.

Lemma loaded_load w state :
  loaded w = Some state ↔ _load_state w = (Returned state, w).
Proof.
  unfold loaded. pose proof (load_world w) as Hw.
  destruct (_load_state w) as [[s|e] w']; cbn in Hw; subst w'; split; congruence.
Qed.

Lemma loaded_none w :
  loaded w = None → ∃ e, _load_state w = (Raised e, w).
Proof.
  unfold loaded. pose proof (load_world w) as Hw.
  destruct (_load_state w) as [[s|e] w']; cbn in Hw; subst w'; [done|eauto].
Qed.

Lemma save_load (m : gmap string json) w :
  is_Some (m !! "player") →
  loaded (_save_state (JObj m) w).2 = Some (JObj m).
Proof. intros Hp. apply loaded_load. by apply load_document. Qed.

(* ===================================================================== *)
(** ** Every call either leaves the world alone or saves *)
(* ===================================================================== *)

Lemma dict_empty_iff (m : gmap string json) : dict_empty m = true ↔ m = ∅.
Proof. unfold dict_empty. rewrite bool_decide_eq_true. apply map_size_empty_iff. Qed.

Lemma is_Some_true {A} (v : A) : bool_decide (is_Some (Some v)) = true.
Proof. by apply bool_decide_eq_true_2. Qed.

Lemma is_Some_false {A} : bool_decide (is_Some (@None A)) = false.
Proof. apply bool_decide_eq_false_2. by intros [? ?]. Qed.

(** A call whose load raises leaves with that exception. *)
Lemma run_op_load_raised o w e :
  _load_state w = (Raised e, w) → run_op o w = (Raised e, w).
Proof. intros Hl. destruct o; cbn [run_op]; by apply bind_raised. Qed.

Ltac run_simpl H :=
  cbn [py_getitem py_setitem py_delitem py_get py_update py_extend py_sub
       py_contains write_back _save_state from_option id fst snd negb truthy] in H;
  unfold mbind, io_bind, mret, io_ret, lift in H; cbn beta iota zeta in H;
  repeat match goal with
         | Hx : _ !! _ = _ |- _ => progress rewrite Hx in H
         end;
  rewrite ?lookup_empty, ?is_Some_true, ?is_Some_false in H.

Ltac saves_leaf :=
  right; eexists _, _; split; [done|]; refine (conj _ eq_refl);
  try match goal with
      | Hc : ?m !! "combat" = Some (JObj ?c), He : ?c !! "enemies" = Some (JObj ?e),
        Hn : (?new <=? 0) = _
        |- saves (ApplyDamage ?t _) ?m (<["combat" := JObj ?X]> ?m) =>
          replace X with (damaged_combat c e t new)
            by (unfold damaged_combat; rewrite Hn;
                try match goal with Hd : dict_empty _ = _ |- _ => rewrite Hd end;
                done)
      end;
  econstructor; try unfold combat_active; eauto;
  try match goal with H : _ !! _ = _ |- _ => by rewrite H end.

Ltac run_in H :=
  run_simpl H;
  repeat (match type of H with
          | context [py_getitem ?x _] => is_var x; destruct x
          | context [py_setitem ?x _ _] => is_var x; destruct x
          | context [py_delitem ?x _] => is_var x; destruct x
          | context [py_get ?x _ _] => is_var x; destruct x
          | context [py_update ?x _] => is_var x; destruct x
          | context [py_extend ?x _] => is_var x; destruct x
          | context [py_sub ?x _] => is_var x; destruct x
          | context [py_contains _ ?x] => is_var x; destruct x
          | context [bool_decide (is_Some (?m !! ?k))] => destruct (m !! k) eqn:?
          | context [default _ (?m !! ?k)] => destruct (m !! k) eqn:?
          | context [dict_empty ?m] => destruct (dict_empty m) eqn:?
          | context [match ?x with _ => _ end] =>
              lazymatch x with
              | context [match _ with _ => _ end] => fail
              | _ => destruct x eqn:?
              end
          end; run_simpl H);
  simplify_eq.

Lemma run_op_cases o w :
  (run_op o w).2 = w ∨
  ∃ st st', loaded w = Some (JObj st) ∧ saves o st st' ∧
            (run_op o w).2 = saved (JObj st') w.
Proof.
  destruct (loaded w) as [state|] eqn:Hl.
  2: { left. apply loaded_none in Hl as [e He].
       by rewrite (run_op_load_raised _ _ _ He). }
  apply loaded_load in Hl.
  destruct (run_op o w) as [r w'] eqn:E. cbn [snd].
  destruct o; cbn [run_op] in E;
    [ unfold initialize_player in E | unfold add_to_inventory in E
    | unfold start_combat in E | unfold apply_damage in E
    | unfold end_combat in E ];
    rewrite (bind_returned _ _ _ _ _ Hl) in E; run_in E; try (by left);
    saves_leaf.
Qed.

(** The same steps, run in the goal under known lookups. *)
Ltac run_goal :=
  repeat (cbn [py_getitem py_setitem py_delitem py_get py_update py_extend py_sub
               py_contains write_back _save_state from_option id fst snd negb
               truthy];
          unfold mbind, io_bind, mret, io_ret, lift; cbn beta iota zeta;
          repeat match goal with
                 | Hx : _ !! _ = _ |- _ => progress rewrite Hx
                 | Hx : String.eqb _ _ = _ |- _ => progress rewrite Hx
                 | Hx : truthy _ = _ |- _ => progress rewrite Hx
                 | Hx : Z.leb _ _ = _ |- _ => progress rewrite Hx
                 | Hx : dict_empty _ = _ |- _ => progress rewrite Hx
                 end;
          rewrite ?lookup_empty, ?is_Some_true, ?is_Some_false,
                  ?lookup_delete_eq, ?lookup_insert_eq).

(* ===================================================================== *)
(** ** The loader *)
(* ===================================================================== *)



(** C5.  Saving a record that has a [player] key (such a record is not
    empty) and loading again returns that very record. *)
Theorem C5_save_then_load (m : gmap string json) (w : World) :
  is_Some (m !! "player") →
  (_save_state (JObj m) ≫= λ _, _load_state) w
  = (Returned (JObj m), saved (JObj m) w).
Proof.
  intros Hp. io_unfold. cbn [_save_state]. by apply load_document.
Qed.

Lemma C5_save_then_load_witness :
  (_save_state default_state ≫= λ _, _load_state) {| file := Some Malformed; writes := 3 |}
  = (Returned default_state,
     {| file := Some (Document default_state); writes := 4 |}).
Proof.
  apply (C5_save_then_load _ {| file := Some Malformed; writes := 3 |}).
  eexists. reflexivity.
Defined.

(* ===================================================================== *)
(** ** [apply_damage] on the player *)
(* ===================================================================== *)

(** The branch taken depends on the target only through [lower]. *)
Lemma apply_damage_player_target target target' damage w :
  lower target = "player" → lower target' = "player" →
  apply_damage target damage w = apply_damage target' damage w.
Proof. intros H H'. unfold apply_damage. by rewrite H, H'. Qed.

(** C6.  When the loaded state has a player record whose [hp] is the integer
    [h], a call with a target that is ["player"] up to case saves the state
    with [hp] set to [h - d] (no floor: the value may be negative) and
    returns the message with the old and the new value; any two such
    targets, ["Player"] and ["player"] among them, give the same result on
    every world. *)
Theorem C6_player_damage :
  (∀ w st p h target d,
     loaded w = Some (JObj st) →
     st !! "player" = Some (JObj p) →
     p !! "hp" = Some (JInt h) →
     lower target = "player" →
     apply_damage target d w
     = (Returned ("Player took " +:+ pretty d +:+ " damage. HP: " +:+ pretty h
                  +:+ " -> " +:+ pretty (h - d) +:+ "."),
        saved (JObj (<["player" := JObj (<["hp" := JInt (h - d)]> p)]> st)) w))
  ∧ (∀ w target target' d,
       lower target = "player" → lower target' = "player" →
       apply_damage target d w = apply_damage target' d w)
  ∧ (∀ w d, apply_damage "Player" d w = apply_damage "player" d w).
Proof.
  split; [|split].
  - intros w st p h target d Hl Hp Hh Ht. apply loaded_load in Hl.
    unfold apply_damage. rewrite (bind_returned _ _ _ _ _ Hl), Ht.
    by run_goal.
  - intros. by apply apply_damage_player_target.
  - intros. by apply apply_damage_player_target.
Qed.

Lemma C6_player_damage_witness :
  apply_damage "PLAYER" 3 {| file := None; writes := 0 |}
  = (Returned "Player took 3 damage. HP: 0 -> -3.",
     saved (JObj (<["player" := JObj (<["hp" := JInt (-3)]> default_player)]>
                    default_record))
       {| file := None; writes := 0 |}).
Proof.
  apply (proj1 C6_player_damage {| file := None; writes := 0 |} default_record
           default_player 0 "PLAYER" 3); reflexivity.
Defined.

(** C7.  When the player record of the loaded state has no [hp] key, a call
    with a target that is ["player"] up to case returns the error string that
    asks for the max HP; it raises nothing, and the world (the file and the
    number of writes) is what it was. *)
Theorem C7_player_uninitialized w st p target d :
  loaded w = Some (JObj st) →
  st !! "player" = Some (JObj p) →
  p !! "hp" = None →
  lower target = "player" →
  apply_damage target d w
  = (Returned "Error: Player HP not initialized. Ask player for their max HP first.",
     w).
Proof.
  intros Hl Hp Hh Ht. apply loaded_load in Hl.
  unfold apply_damage. rewrite (bind_returned _ _ _ _ _ Hl), Ht.
  by run_goal.
Qed.

Lemma C7_player_uninitialized_witness :
  apply_damage "Player" 5
    {| file := Some (Document (JObj {[ "player" := JObj {[ "name" := JStr "Ann" ]} ]}));
       writes := 2 |}
  = (Returned "Error: Player HP not initialized. Ask player for their max HP first.",
     {| file := Some (Document (JObj {[ "player" := JObj {[ "name" := JStr "Ann" ]} ]}));
        writes := 2 |}).
Proof.
  apply (C7_player_uninitialized _ {[ "player" := JObj {[ "name" := JStr "Ann" ]} ]}
           {[ "name" := JStr "Ann" ]}); reflexivity.
Defined.

(* ===================================================================== *)
(** ** [apply_damage] on an enemy *)
(* ===================================================================== *)

(** C4.  Let the loaded state be a record whose combat record is [c] (the
    empty record when the key is missing), and let the target not be
    ["player"] up to case.  If combat is not active, or the target is not a
    key of the [enemies] mapping, the call returns the error string naming
    the target, and the world is what it was: nothing is changed and nothing
    is written. *)
Theorem C4_target_not_found w st c target d :
  loaded w = Some (JObj st) →
  default (JObj ∅) (st !! "combat") = JObj c →
  lower target ≠ "player" →
  ¬ combat_active c ∨ (enemies_is_dict c ∧ ¬ is_enemy_key c target) →
  apply_damage target d w
  = (Returned ("Error: Target '" +:+ target +:+ "' not found in active combat."), w).
Proof.
  intros Hl Hc Ht Hno. apply loaded_load in Hl.
  apply String.eqb_neq in Ht.
  unfold apply_damage. rewrite (bind_returned _ _ _ _ _ Hl).
  cbn [py_get]. rewrite Hc, Ht. io_unfold. cbn [py_get].
  destruct (truthy (default JNull (c !! "active"))) eqn:Ha; [|done].
  destruct Hno as [Hno|[Hd Hno]].
  { destruct Hno. destruct (c !! "active") as [a|] eqn:Hca; [by exists a|done]. }
  destruct (c !! "enemies") as [x|] eqn:He; cbn [default from_option id].
  - destruct (Hd x He) as [e ->]. cbn [py_contains].
    destruct (e !! target) as [v|] eqn:Hv.
    + destruct Hno. exists e. by rewrite Hv.
    + by rewrite is_Some_false.
  - cbn [py_contains]. by rewrite lookup_empty, is_Some_false.
Qed.

Lemma C4_target_not_found_witness :
  apply_damage "Goblin" 5 {| file := None; writes := 0 |}
  = (Returned "Error: Target 'Goblin' not found in active combat.",
     {| file := None; writes := 0 |}).
Proof.
  apply (C4_target_not_found {| file := None; writes := 0 |} default_record
           default_combat "Goblin" 5).
  - reflexivity.
  - reflexivity.
  - discriminate.
  - left. intros (a & Ha & Ht). vm_compute in Ha. injection Ha as <-. discriminate.
Defined.

(** C2, as stated, fails: combat is active and ["player"] is a key of
    [enemies] with HP 7, yet damage 7 to that target goes to the player
    record (HP 10 -> 3); the enemy keeps its key and its HP, and combat stays
    active. *)
Lemma C2_counterexample_enemy_named_player :
  loaded {| file := Some (Document (JObj enemy_called_player)); writes := 0 |}
  = Some (JObj enemy_called_player) ∧
  (∃ c e, enemy_called_player !! "combat" = Some (JObj c) ∧
          c !! "active" = Some (JBool true) ∧
          c !! "enemies" = Some (JObj e) ∧ e !! "player" = Some (JInt 7)) ∧
  7 - 7 ≤ 0 ∧
  ∃ st' c' e',
    apply_damage "player" 7
      {| file := Some (Document (JObj enemy_called_player)); writes := 0 |}
    = (Returned "Player took 7 damage. HP: 10 -> 3.",
       {| file := Some (Document (JObj st')); writes := 1 |}) ∧
    st' !! "combat" = Some (JObj c') ∧
    c' !! "active" = Some (JBool true) ∧
    c' !! "enemies" = Some (JObj e') ∧ e' !! "player" = Some (JInt 7).
Proof.
  split; [reflexivity|]. split; [by eexists _, _|]. split; [done|].
  eexists _, _, _. split; [vm_compute; reflexivity|]. by vm_compute.
Qed.

(** C2, amended.  Let the loaded state have a combat record [c] that is
    active and whose [enemies] mapping [e] gives the target the integer HP
    [h], and let the target not be ["player"] up to case.  The call saves the
    state with the combat record replaced and returns a message:
    - when [h - d <= 0], the target's key is deleted from [enemies]; if the
      mapping is then empty [active] becomes [False] and the message says
      that the target died and that combat has ended, otherwise [active] is
      untouched and the message says that the target died;
    - when [h - d > 0], the target's HP becomes [h - d], the key stays, and
      the message reports the damage with the old and the new HP.
    In the first case the saved [active] is [False] exactly when the
    remaining mapping is empty. *)
Theorem C2_enemy_damage w st c a e target h d :
  loaded w = Some (JObj st) →
  st !! "combat" = Some (JObj c) →
  c !! "active" = Some a → truthy a = true →
  c !! "enemies" = Some (JObj e) →
  e !! target = Some (JInt h) →
  lower target ≠ "player" →
  ∃ c' msg,
    apply_damage target d w
    = (Returned msg, saved (JObj (<["combat" := JObj c']> st)) w) ∧
    (h - d ≤ 0 →
       c' !! "enemies" = Some (JObj (delete target e)) ∧
       delete target e !! target = None ∧
       (delete target e = ∅ →
          c' !! "active" = Some (JBool false) ∧
          msg = (target +:+ " took " +:+ pretty d +:+ " damage and has died!")
                +:+ " Combat has ended.") ∧
       (delete target e ≠ ∅ →
          c' !! "active" = Some a ∧
          msg = target +:+ " took " +:+ pretty d +:+ " damage and has died!") ∧
       (c' !! "active" = Some (JBool false) ↔ delete target e = ∅)) ∧
    (0 < h - d →
       c' = <["enemies" := JObj (<[target := JInt (h - d)]> e)]> c ∧
       <[target := JInt (h - d)]> e !! target = Some (JInt (h - d)) ∧
       c' !! "active" = Some a ∧
       msg = target +:+ " took " +:+ pretty d +:+ " damage. HP: " +:+ pretty h
             +:+ " -> " +:+ pretty (h - d) +:+ ".").
Proof.
  intros Hl Hc Ha Hta He Hh Ht. apply loaded_load in Hl.
  apply String.eqb_neq in Ht.
  unfold apply_damage. rewrite (bind_returned _ _ _ _ _ Hl).
  destruct (h - d <=? 0) eqn:Hle.
  - destruct (dict_empty (delete target e)) eqn:Hd.
    + pose proof (proj1 (dict_empty_iff _) Hd) as Hemp.
      eexists _, _. split; [by run_goal|].
      split; [|intros; apply Z.leb_le in Hle; lia]. intros _.
      rewrite lookup_insert_eq, lookup_insert_ne, lookup_insert_eq, lookup_delete_eq
        by done.
      split; [done|]. split; [done|]. split; [done|]. split; [by intros []|done].
    + assert (delete target e ≠ ∅) as Hne.
      { intros Hemp%dict_empty_iff. congruence. }
      eexists _, _. split; [by run_goal|].
      split; [|intros; apply Z.leb_le in Hle; lia]. intros _.
      rewrite lookup_insert_eq, lookup_insert_ne, lookup_delete_eq, Ha by done.
      split; [done|]. split; [done|]. split; [done|]. split; [done|].
      split; [|done]. intros [= ->]. done.
  - eexists _, _. split; [by run_goal|].
    split; [intros; apply Z.leb_gt in Hle; lia|]. intros _.
    rewrite lookup_insert_eq, lookup_insert_ne by done. by rewrite Ha.
Qed.

Lemma C2_enemy_damage_witness :
  ∃ c' msg,
    apply_damage "Goblin" 7 {| file := Some (Document (JObj goblin_state)); writes := 1 |}
    = (Returned msg,
       saved (JObj (<["combat" := JObj c']> goblin_state))
         {| file := Some (Document (JObj goblin_state)); writes := 1 |}) ∧
    c' !! "enemies" = Some (JObj ∅) ∧
    c' !! "active" = Some (JBool false) ∧
    msg = "Goblin took 7 damage and has died! Combat has ended.".
Proof.
  destruct (C2_enemy_damage
              {| file := Some (Document (JObj goblin_state)); writes := 1 |}
              goblin_state
              {[ "active" := JBool true; "round" := JInt 0;
                 "initiative_order" := JList [];
                 "enemies" := JObj {[ "Goblin" := JInt 7 ]} ]}
              (JBool true) {[ "Goblin" := JInt 7 ]} "Goblin" 7 7)
    as (c' & msg & Hrun & Hdead & _).
  - vm_compute. reflexivity.
  - vm_compute. reflexivity.
  - vm_compute. reflexivity.
  - vm_compute. reflexivity.
  - vm_compute. reflexivity.
  - vm_compute. reflexivity.
  - vm_compute. discriminate.
  - exists c', msg. split; [exact Hrun|].
    destruct (Hdead ltac:(lia)) as (He & _ & Hemp & _).
    split; [exact He|]. apply Hemp. vm_compute. reflexivity.
Defined.

(* ===================================================================== *)
(** ** A state without a combat record *)
(* ===================================================================== *)

(** C10.  A file that holds a record with a [player] key and no [combat]
    key is returned by the loader as it is; on it [start_combat] and
    [end_combat] raise [KeyError('combat')] instead of returning their
    confirmation, and the world is what it was (no write). *)
Theorem C10_missing_combat_raises w st enemies :
  file w = Some (Document (JObj st)) →
  is_Some (st !! "player") →
  st !! "combat" = None →
  loaded w = Some (JObj st) ∧
  start_combat enemies w = (Raised (KeyError "combat"), w) ∧
  end_combat w = (Raised (KeyError "combat"), w).
Proof.
  intros Hf Hp Hc. pose proof (load_document st w Hf Hp) as Hl.
  split; [by apply loaded_load|].
  unfold start_combat, end_combat. rewrite !(bind_returned _ _ _ _ _ Hl).
  split; by run_goal.
Qed.

Lemma C10_missing_combat_witness :
  loaded {| file := Some (Document (JObj {[ "player" := JObj ∅ ]})); writes := 0 |}
  = Some (JObj {[ "player" := JObj ∅ ]}) ∧
  start_combat [("Goblin", 7)]
    {| file := Some (Document (JObj {[ "player" := JObj ∅ ]})); writes := 0 |}
  = (Raised (KeyError "combat"),
     {| file := Some (Document (JObj {[ "player" := JObj ∅ ]})); writes := 0 |}) ∧
  end_combat {| file := Some (Document (JObj {[ "player" := JObj ∅ ]})); writes := 0 |}
  = (Raised (KeyError "combat"),
     {| file := Some (Document (JObj {[ "player" := JObj ∅ ]})); writes := 0 |}).
Proof.
  apply (C10_missing_combat_raises
           {| file := Some (Document (JObj {[ "player" := JObj ∅ ]})); writes := 0 |}
           {[ "player" := JObj ∅ ]} [("Goblin", 7)]).
  - reflexivity.
  - eexists. reflexivity.
  - reflexivity.
Defined.

(* ===================================================================== *)
(** ** Properties of every sequence of calls *)
(* ===================================================================== *)

Lemma exec_cons o ops w : exec (o :: ops) w = exec ops (run_op o w).2.
Proof. reflexivity. Qed.

(** No tool drops the [player] key, so what a tool saves is what the next
    load returns. *)
Lemma saves_player o st st' :
  saves o st st' → is_Some (st !! "player") → is_Some (st' !! "player").
Proof.
  intros Hs Hp. destruct Hs;
    solve [ by rewrite lookup_insert_eq | by rewrite lookup_insert_ne ].
Qed.

Lemma run_op_loaded o w :
  (run_op o w).2 = w ∨
  ∃ st st', loaded w = Some (JObj st) ∧ saves o st st' ∧
            (run_op o w).2 = saved (JObj st') w ∧
            loaded (run_op o w).2 = Some (JObj st').
Proof.
  destruct (run_op_cases o w) as [Hw|(st & st' & Hl & Hs & Hw)]; [by left|].
  right. exists st, st'. repeat split; try done.
  rewrite Hw. apply (save_load st' w).
  eapply saves_player; [done|]. by eapply loaded_obj_player.
Qed.

(** The combat record after a save, field by field. *)
Lemma damaged_combat_frame c e target new_hp k :
  k ≠ "active" → k ≠ "enemies" →
  damaged_combat c e target new_hp !! k = c !! k.
Proof.
  intros Ha He. unfold damaged_combat.
  destruct (new_hp <=? 0); [destruct (dict_empty _)|];
    by rewrite ?lookup_insert_ne by done.
Qed.

Lemma saves_combat_invariant o st st' :
  saves o st st' → combat_invariant (JObj st) → combat_invariant (JObj st').
Proof.
  intros Hs (st0 & c0 & a0 & e0 & [= <-] & Hc & Ha & He & Himp).
  destruct Hs as [? ? ? ? ? ? st p Hp|items st inv Hi|enemies st c Hc'
                 |target damage st p old_hp new_hp Hp Hh Hsub
                 |target damage st c e old_hp new_hp Hc' Hact He' Hh Hsub
                 |st c Hc'].
  - eexists _, c0, a0, e0. by rewrite lookup_insert_ne.
  - eexists _, c0, a0, e0. by rewrite lookup_insert_ne.
  - eexists _, _, true, _. split; [done|]. split; [apply lookup_insert_eq|].
    split; [by rewrite lookup_insert_ne, lookup_insert_eq|].
    split; [apply lookup_insert_eq|done].
  - eexists _, c0, a0, e0. by rewrite lookup_insert_ne.
  - rewrite Hc in Hc'. injection Hc' as <-.
    rewrite He in He'. injection He' as <-.
    destruct Hact as (a & Ha' & Hta). rewrite Ha in Ha'. injection Ha' as <-.
    cbn in Hta. subst a0. unfold damaged_combat.
    destruct (new_hp <=? 0); [destruct (dict_empty _) eqn:Hd|].
    + apply dict_empty_iff in Hd.
      eexists _, _, false, ∅. split; [done|]. split; [apply lookup_insert_eq|].
      split; [apply lookup_insert_eq|]. split; [|done].
      by rewrite lookup_insert_ne, lookup_insert_eq, Hd.
    + eexists _, _, true, _. split; [done|]. split; [apply lookup_insert_eq|].
      split; [by rewrite lookup_insert_ne|]. split; [apply lookup_insert_eq|done].
    + eexists _, _, true, _. split; [done|]. split; [apply lookup_insert_eq|].
      split; [by rewrite lookup_insert_ne|]. split; [apply lookup_insert_eq|done].
  - eexists _, _, false, ∅. split; [done|]. split; [apply lookup_insert_eq|].
    split; [by rewrite lookup_insert_ne, lookup_insert_eq|].
    split; [apply lookup_insert_eq|done].
Qed.

Lemma combat_invariant_default : combat_invariant default_state.
Proof. exists default_record, default_combat, false, ∅. by vm_compute. Qed.

Lemma exec_combat_invariant ops w state :
  loaded w = Some state → combat_invariant state →
  ∃ state', loaded (exec ops w) = Some state' ∧ combat_invariant state'.
Proof.
  revert w state. induction ops as [|o ops IH]; intros w state Hl Hinv.
  { by exists state. }
  rewrite exec_cons.
  destruct (run_op_loaded o w) as [Hw|(st & st' & Hl' & Hs & _ & Hl'')].
  - rewrite Hw. by apply (IH w state).
  - apply (IH _ (JObj st')); [done|].
    apply (saves_combat_invariant o st); [done|]. congruence.
Qed.

(** C3.  Start from a world whose load gives the default record.  After any
    sequence of calls of the five tools the load gives a state whose combat
    record has a boolean [active] and a mapping [enemies], and if [active]
    is [False] the mapping is empty. *)
Theorem C3_inactive_combat_has_no_enemies ops w :
  loaded w = Some default_state →
  ∃ state, loaded (exec ops w) = Some state ∧ combat_invariant state.
Proof.
  intros Hl. apply (exec_combat_invariant ops w default_state Hl).
  apply combat_invariant_default.
Qed.

Lemma C3_inactive_combat_witness :
  ∃ state,
    loaded (exec [StartCombat [("Goblin", 7); ("Wolf", 15)];
                  ApplyDamage "Goblin" 7; ApplyDamage "Wolf" 20;
                  AddToInventory ["Shortbow"]]
              {| file := None; writes := 0 |}) = Some state ∧
    combat_invariant state.
Proof.
  apply (C3_inactive_combat_has_no_enemies
           [StartCombat [("Goblin", 7); ("Wolf", 15)];
            ApplyDamage "Goblin" 7; ApplyDamage "Wolf" 20;
            AddToInventory ["Shortbow"]]
           {| file := None; writes := 0 |}).
  reflexivity.
Defined.

(** The inventory of a loaded record. *)
Lemma inventory_of_loaded w st :
  loaded w = Some (JObj st) →
  inventory_of w = match st !! "inventory" with
                   | Some (JList inv) => inv
                   | _ => []
                   end.
Proof. intros Hl. unfold inventory_of. by rewrite Hl. Qed.

Lemma saves_inventory_prefix o st st' :
  saves o st st' →
  match st !! "inventory" with Some (JList l) => l | _ => [] end
  `prefix_of` match st' !! "inventory" with Some (JList l) => l | _ => [] end.
Proof.
  intros Hs. destruct Hs as [? ? ? ? ? ? st p Hp|items st inv Hi| | | |];
    try by rewrite lookup_insert_ne.
  rewrite lookup_insert_eq.
  destruct (st !! "inventory") as [j|]; cbn in Hi; subst.
  - by apply prefix_app_r.
  - apply prefix_nil.
Qed.

Lemma run_op_inventory_prefix o w :
  inventory_of w `prefix_of` inventory_of (run_op o w).2.
Proof.
  destruct (run_op_loaded o w) as [Hw|(st & st' & Hl & Hs & _ & Hl')].
  { by rewrite Hw. }
  rewrite (inventory_of_loaded _ _ Hl), (inventory_of_loaded _ _ Hl').
  by eapply saves_inventory_prefix.
Qed.

(** C8.  On a loaded record whose inventory is the list [inv],
    [add_to_inventory items] saves the record with inventory
    [inv ++ items]: every item, at the end, in the given order, duplicates
    kept.  And over any sequence of calls of the five tools the inventory a
    call starts from is a prefix of the inventory the next call starts from:
    nothing is removed and earlier elements stay where they are. *)
Theorem C8_inventory_append_only :
  (∀ w st inv items,
     loaded w = Some (JObj st) →
     st !! "inventory" = Some (JList inv) →
     add_to_inventory items w
     = (Returned ("Added to inventory: " +:+ String.concat ", " items),
        saved (JObj (<["inventory" := JList (inv ++ (JStr <$> items))]> st)) w)
     ∧ inventory_of (add_to_inventory items w).2 = inv ++ (JStr <$> items))
  ∧ (∀ ops w, inventory_of w `prefix_of` inventory_of (exec ops w)).
Proof.
  split.
  - intros w st inv items Hl Hi.
    assert (add_to_inventory items w
            = (Returned ("Added to inventory: " +:+ String.concat ", " items),
               saved (JObj (<["inventory" := JList (inv ++ (JStr <$> items))]> st)) w))
      as Hrun.
    { apply loaded_load in Hl. unfold add_to_inventory.
      rewrite (bind_returned _ _ _ _ _ Hl). by run_goal. }
    split; [done|]. rewrite Hrun. cbn [snd].
    rewrite (inventory_of_loaded _ (<["inventory" := JList (inv ++ (JStr <$> items))]> st)).
    + by rewrite lookup_insert_eq.
    + apply save_load. rewrite lookup_insert_ne by done.
      by eapply loaded_obj_player.
  - intros ops. induction ops as [|o ops IH]; intros w; [done|].
    rewrite exec_cons. etrans; [apply (run_op_inventory_prefix o w)|apply IH].
Qed.

Lemma C8_inventory_witness :
  add_to_inventory ["C"]
    {| file := Some (Document (JObj (<["inventory" := JList [JStr "A"; JStr "B"]]>
                                      default_record)));
       writes := 1 |}
  = (Returned "Added to inventory: C",
     saved (JObj (<["inventory" := JList [JStr "A"; JStr "B"; JStr "C"]]>
                    (<["inventory" := JList [JStr "A"; JStr "B"]]> default_record)))
       {| file := Some (Document (JObj (<["inventory" := JList [JStr "A"; JStr "B"]]>
                                         default_record)));
          writes := 1 |}).
Proof.
  apply (proj1 C8_inventory_append_only
           {| file := Some (Document (JObj (<["inventory" := JList [JStr "A"; JStr "B"]]>
                                             default_record)));
              writes := 1 |}
           (<["inventory" := JList [JStr "A"; JStr "B"]]> default_record)
           [JStr "A"; JStr "B"] ["C"]).
  - vm_compute. reflexivity.
  - vm_compute. reflexivity.
Defined.

(* ===================================================================== *)
(** ** The fields no tool writes *)
(* ===================================================================== *)

Lemma saves_combat_frame o st st' c k :
  saves o st st' → st !! "combat" = Some (JObj c) →
  k ≠ "active" → k ≠ "enemies" →
  ∃ c', st' !! "combat" = Some (JObj c') ∧ c' !! k = c !! k.
Proof.
  intros Hs Hc Ha He.
  destruct Hs as [? ? ? ? ? ? st p Hp|items st inv Hi|enemies st c0 Hc'
                 |target damage st p old_hp new_hp Hp Hh Hsub
                 |target damage st c0 e old_hp new_hp Hc' Hact He' Hh Hsub
                 |st c0 Hc'];
    try (exists c; by rewrite lookup_insert_ne);
    rewrite Hc in Hc'; injection Hc' as <-;
    eexists; (split; [apply lookup_insert_eq|]).
  - by rewrite !lookup_insert_ne by done.
  - by apply damaged_combat_frame.
  - by rewrite !lookup_insert_ne by done.
Qed.

(** C9.  Whatever the call, if the state it loads has a combat record, the
    state the next load gives has one too, with the same [round] and the
    same [initiative_order] (present with the same value, or absent as
    before); the call either left the world alone or saved exactly that
    state. *)
Theorem C9_round_and_initiative_order_kept o w st c :
  loaded w = Some (JObj st) →
  st !! "combat" = Some (JObj c) →
  ∃ st' c',
    loaded (run_op o w).2 = Some (JObj st') ∧
    st' !! "combat" = Some (JObj c') ∧
    c' !! "round" = c !! "round" ∧
    c' !! "initiative_order" = c !! "initiative_order" ∧
    ((run_op o w).2 = w ∨ (run_op o w).2 = saved (JObj st') w).
Proof.
  intros Hl Hc.
  destruct (run_op_loaded o w) as [Hw|(st0 & st' & Hl0 & Hs & Hw & Hl')].
  { exists st, c. rewrite Hw. repeat split; auto. }
  rewrite Hl in Hl0. injection Hl0 as <-.
  destruct (saves_combat_frame o st st' c "round" Hs Hc) as (c' & Hc' & Hr); [done..|].
  destruct (saves_combat_frame o st st' c "initiative_order" Hs Hc)
    as (c'' & Hc'' & Hi); [done..|].
  rewrite Hc' in Hc''. injection Hc'' as <-.
  exists st', c'. repeat split; auto.
Qed.

Lemma C9_round_and_initiative_order_witness :
  ∃ st' c',
    loaded (run_op (StartCombat [("Goblin", 7)]) {| file := None; writes := 0 |}).2
    = Some (JObj st') ∧
    st' !! "combat" = Some (JObj c') ∧
    c' !! "round" = Some (JInt 0) ∧
    c' !! "initiative_order" = Some (JList []) ∧
    ((run_op (StartCombat [("Goblin", 7)]) {| file := None; writes := 0 |}).2
     = {| file := None; writes := 0 |}
     ∨ (run_op (StartCombat [("Goblin", 7)]) {| file := None; writes := 0 |}).2
       = saved (JObj st') {| file := None; writes := 0 |}).
Proof.
  apply (C9_round_and_initiative_order_kept (StartCombat [("Goblin", 7)])
           {| file := None; writes := 0 |} default_record default_combat).
  - reflexivity.
  - reflexivity.
Defined.

(* ===================================================================== *)
(** ** Start-up and worked examples *)
(* ===================================================================== *)

(** After the module-level block ran, the file is there; when it had to be
    created it holds the default record. *)
Lemma bootstrap_creates_default w :
  file w = None →
  bootstrap w = (Returned (), saved default_state w) ∧
  loaded (bootstrap w).2 = Some default_state.
Proof.
  intros Hf. unfold bootstrap. rewrite Hf. split; [done|].
  apply (save_load default_record w). by eexists.
Qed.

Lemma bootstrap_keeps_file w contents :
  file w = Some contents → bootstrap w = (Returned (), w).
Proof. intros Hf. unfold bootstrap. by rewrite Hf. Qed.

(** An enemy with HP 7 that takes 6 stays, at HP 1. *)
Example goblin_survives_six :
  ∃ w', apply_damage "Goblin" 6
          {| file := Some (Document (JObj goblin_state)); writes := 1 |}
        = (Returned "Goblin took 6 damage. HP: 7 -> 1.", w') ∧
        loaded w'
        = Some (JObj (<["combat" :=
                          JObj {[ "active" := JBool true; "round" := JInt 0;
                                  "initiative_order" := JList [];
                                  "enemies" := JObj {[ "Goblin" := JInt 1 ]} ]}]>
                        default_record)).
Proof. eexists. split; vm_compute; reflexivity. Qed.

(** Starting a fight with one goblin of HP 7 and dealing 7 ends the fight. *)
Example goblin_dies_and_combat_ends :
  loaded (exec [StartCombat [("Goblin", 7)]; ApplyDamage "Goblin" 7]
            {| file := None; writes := 0 |})
  = Some (JObj (<["combat" :=
                    JObj {[ "active" := JBool false; "round" := JInt 0;
                            "initiative_order" := JList [];
                            "enemies" := JObj ∅ ]}]> default_record)).
Proof. vm_compute. reflexivity. Qed.

(** Two additions in a row keep the order and the duplicates. *)
Example inventory_in_order :
  inventory_of (exec [AddToInventory ["A"; "B"]; AddToInventory ["C"; "A"]]
                  {| file := None; writes := 0 |})
  = [JStr "A"; JStr "B"; JStr "C"; JStr "A"].
Proof. vm_compute. reflexivity. Qed.

(** A document that is a number is truthy and not a container: the
    membership test raises, and the loader does not catch it. *)
Example load_of_a_number_raises :
  _load_state {| file := Some (Document (JInt 5)); writes := 0 |}
  = (Raised TypeError, {| file := Some (Document (JInt 5)); writes := 0 |}).
Proof. reflexivity. Qed.

(* ===================================================================== *)
(** ** What a call returns, and when it writes *)
(* ===================================================================== *)

Ltac saves_rule :=
  try match goal with
      | Hc : ?m !! "combat" = Some (JObj ?c), He : ?c !! "enemies" = Some (JObj ?e),
        Hn : (?new <=? 0) = _
        |- saves (ApplyDamage ?t _) ?m (<["combat" := JObj ?X]> ?m) =>
          replace X with (damaged_combat c e t new)
            by (unfold damaged_combat; rewrite Hn;
                try match goal with Hd : dict_empty _ = _ |- _ => rewrite Hd end;
                done)
      end;
  econstructor; try unfold combat_active; eauto;
  try match goal with H : _ !! _ = _ |- _ => by rewrite H end.

Ltac outcome_leaf :=
  first
    [ by (left; eexists)
    | by (right; left; split; [eexists|]; try done; eauto 6)
    | right; right; eexists _, _, _; split; [done|]; refine (conj _ eq_refl);
      saves_rule ].

(** The three ways a call can end: an exception, with the world as it was;
    a soft error of [apply_damage], with the world as it was; a message
    after one save. *)
Lemma run_op_outcome o w :
  (∃ e, run_op o w = (Raised e, w)) ∨
  ((∃ msg, run_op o w = (Returned msg, w)) ∧
   ∃ target damage, o = ApplyDamage target damage ∧
     ((run_op o w).1 = Returned player_uninitialized_msg ∨
      (run_op o w).1 = Returned (target_not_found_msg target))) ∨
  (∃ msg st st', loaded w = Some (JObj st) ∧ saves o st st' ∧
                 run_op o w = (Returned msg, saved (JObj st') w)).
Proof.
  destruct (loaded w) as [state|] eqn:Hl.
  2: { left. apply loaded_none in Hl as [e He]. exists e.
       by apply run_op_load_raised. }
  apply loaded_load in Hl.
  destruct (run_op o w) as [r w'] eqn:E. cbn [fst].
  destruct o; cbn [run_op] in E;
    [ unfold initialize_player in E | unfold add_to_inventory in E
    | unfold start_combat in E | unfold apply_damage in E
    | unfold end_combat in E ];
    rewrite (bind_returned _ _ _ _ _ Hl) in E; run_in E.
  all: outcome_leaf.
Qed.


(** X2.  Only [apply_damage] can return a string without having saved, and
    then the string is one of its two error messages.  Every other returned
    string comes after a save of a record that has a [player] key, which is
    the record [read_gamestate] returns next. *)
Theorem X2_confirmation_means_saved o w msg :
  (run_op o w).1 = Returned msg →
  (∃ target damage,
     o = ApplyDamage target damage ∧ (run_op o w).2 = w ∧
     (msg = "Error: Player HP not initialized. Ask player for their max HP first."
      ∨ msg = "Error: Target '" +:+ target +:+ "' not found in active combat."))
  ∨ (∃ st', (run_op o w).2 = saved (JObj st') w ∧
            read_gamestate (run_op o w).2 = (Returned (JObj st'), (run_op o w).2)).
Proof.
  intros Hr.
  destruct (run_op_outcome o w)
    as [[e He]|[[[msg' Hm] (t & d & -> & Hmsg)]|(msg' & st & st' & Hl & Hs & Hrun)]].
  - by rewrite He in Hr.
  - left. exists t, d. rewrite Hm in Hr, Hmsg |- *. cbn in *.
    injection Hr as ->. split; [done|]. split; [done|].
    destruct Hmsg as [[= ->]|[= ->]]; auto.
  - right. exists st'. rewrite Hrun. cbn [snd]. split; [done|].
    unfold read_gamestate. apply loaded_load, (save_load st' w).
    eapply saves_player; [done|]. by eapply loaded_obj_player.
Qed.

Lemma X2_confirmation_witness :
  (∃ target damage,
     EndCombat = ApplyDamage target damage ∧
     (run_op EndCombat {| file := None; writes := 0 |}).2 = {| file := None; writes := 0 |} ∧
     ("Combat ended manually."
      = "Error: Player HP not initialized. Ask player for their max HP first."
      ∨ "Combat ended manually."
        = "Error: Target '" +:+ target +:+ "' not found in active combat."))
  ∨ (∃ st', (run_op EndCombat {| file := None; writes := 0 |}).2
            = saved (JObj st') {| file := None; writes := 0 |} ∧
            read_gamestate (run_op EndCombat {| file := None; writes := 0 |}).2
            = (Returned (JObj st'), (run_op EndCombat {| file := None; writes := 0 |}).2)).
Proof.
  apply (X2_confirmation_means_saved EndCombat {| file := None; writes := 0 |}
           "Combat ended manually.").
  vm_compute. reflexivity.
Defined.

(* ===================================================================== *)
(** ** When the loader itself raises, or returns something that is no record *)
(* ===================================================================== *)



(** X4.  The loader can return something that is no record: a list with the
    element ["player"], or a string that contains it.  On such a state every
    tool raises before it writes: the subscripts raise [TypeError], the calls
    of [.get] raise [AttributeError]. *)
Theorem X4_non_record_state o w state :
  loaded w = Some state →
  (∀ st, state ≠ JObj st) →
  file w = Some (Document state) ∧
  ((∃ l, state = JList l ∧ existsb (is_str "player") l = true)
   ∨ (∃ s, state = JStr s ∧ is_substring "player" s = true)) ∧
  run_op o w
  = (Raised match o with
            | InitializePlayer _ _ _ _ _ _ | StartCombat _ | EndCombat => TypeError
            | AddToInventory _ | ApplyDamage _ _ => AttributeError
            end, w).
Proof.
  intros Hl Hno.
  assert (file w = Some (Document state) ∧ truthy state = true
          ∧ py_contains "player" state = Returned true) as (Hf & Ht & Hc).
  { apply loaded_load in Hl.
    destruct (load_returned w state) as [->|H]; [by rewrite Hl| |done].
    by destruct (Hno default_record). }
  apply loaded_load in Hl.
  split; [done|]. split.
  - destruct state as [| | |s|l|m]; try done.
    + right. exists s. split; [done|]. by injection Hc.
    + left. exists l. split; [done|]. by injection Hc.
    + by destruct (Hno m).
  - destruct o; cbn [run_op];
      [ unfold initialize_player | unfold add_to_inventory | unfold start_combat
      | unfold apply_damage | unfold end_combat ];
      rewrite (bind_returned _ _ _ _ _ Hl);
      destruct state as [| | | | |m]; try done; by destruct (Hno m).
Qed.

Lemma X4_non_record_state_witness :
  file {| file := Some (Document (JList [JStr "player"])); writes := 0 |}
  = Some (Document (JList [JStr "player"])) ∧
  ((∃ l, JList [JStr "player"] = JList l ∧ existsb (is_str "player") l = true)
   ∨ (∃ s, JList [JStr "player"] = JStr s ∧ is_substring "player" s = true)) ∧
  run_op (AddToInventory ["Rope"])
    {| file := Some (Document (JList [JStr "player"])); writes := 0 |}
  = (Raised AttributeError,
     {| file := Some (Document (JList [JStr "player"])); writes := 0 |}).
Proof.
  apply (X4_non_record_state (AddToInventory ["Rope"])
           {| file := Some (Document (JList [JStr "player"])); writes := 0 |}
           (JList [JStr "player"])).
  - reflexivity.
  - discriminate.
Defined.

(** Top-level keys survive a save. *)
Lemma saves_keys o st st' k :
  saves o st st' → is_Some (st !! k) → is_Some (st' !! k).
Proof.
  intros Hs Hk.
  assert (∀ k' v, is_Some (<[k' := v]> st !! k)) as Hins.
  { intros k' v. destruct (decide (k' = k)) as [->|Hne].
    - rewrite lookup_insert_eq. by eexists.
    - by rewrite lookup_insert_ne. }
  destruct Hs; apply Hins.
Qed.

(** X5.  Once the loader returns a record, it does so after every sequence
    of calls: no tool leaves the file in a state the loader rejects or
    replaces by the default, and no tool removes a top-level key. *)
Theorem X5_record_stays_loadable ops w st :
  loaded w = Some (JObj st) →
  ∃ st', loaded (exec ops w) = Some (JObj st') ∧
         ∀ k, is_Some (st !! k) → is_Some (st' !! k).
Proof.
  revert w st. induction ops as [|o ops IH]; intros w st Hl.
  { by exists st. }
  rewrite exec_cons.
  destruct (run_op_loaded o w) as [->|(st0 & st1 & Hl0 & Hs & _ & Hl1)].
  { by apply IH. }
  rewrite Hl in Hl0. injection Hl0 as <-.
  destruct (IH _ _ Hl1) as (st' & Hl' & Hk).
  exists st'. split; [done|]. intros k Hin. apply Hk. by eapply saves_keys.
Qed.

Lemma X5_record_stays_loadable_witness :
  ∃ st', loaded (exec [StartCombat [("Goblin", 7)]; ApplyDamage "Goblin" 9;
                       InitializePlayer "Ann" "Elf" "Bard" "Sage" 8 12]
                   {| file := Some Malformed; writes := 0 |}) = Some (JObj st') ∧
         ∀ k, is_Some (default_record !! k) → is_Some (st' !! k).
Proof.
  apply (X5_record_stays_loadable
           [StartCombat [("Goblin", 7)]; ApplyDamage "Goblin" 9;
            InitializePlayer "Ann" "Elf" "Bard" "Sage" 8 12]
           {| file := Some Malformed; writes := 0 |} default_record).
  reflexivity.
Defined.

(** X6.  The start-up block creates the file only when it is absent, with
    the default record in it; a file that is there, malformed or not, is
    left as it is.  After it the file exists, running it again changes
    nothing, and what the loader returns is what it returned before. *)
Theorem X6_bootstrap w :
  file (bootstrap w).2 ≠ None ∧
  bootstrap (bootstrap w).2 = (Returned (), (bootstrap w).2) ∧
  loaded (bootstrap w).2 = loaded w ∧
  match file w with
  | None => bootstrap w = (Returned (), saved default_state w)
  | Some _ => bootstrap w = (Returned (), w)
  end.
Proof.
  unfold bootstrap. destruct (file w) as [c|] eqn:Hf; cbn [snd].
  - rewrite Hf. done.
  - cbn. repeat split; try done. unfold loaded at 2, _load_state. by rewrite Hf.
Qed.

(* ===================================================================== *)
(** ** The file matters only through the loader *)
(* ===================================================================== *)

Lemma load_raised_type_error w e w' :
  _load_state w = (Raised e, w') → e = TypeError.
Proof.
  unfold _load_state. destruct (file w) as [[|j]|]; try done.
  destruct (negb (truthy j)); [done|].
  destruct (py_contains "player" j) as [[]|e'] eqn:Hc; try done.
  intros [= <- _]. destruct j; cbn in Hc; congruence.
Qed.

Ltac replay H :=
  repeat (run_simpl H;
          repeat match goal with
                 | Hx : _ = true |- _ => progress rewrite Hx in H
                 | Hx : _ = false |- _ => progress rewrite Hx in H
                 end).

(** What a call returns and what it saves is a function of the state the
    loader gives it. *)
Lemma run_op_same_loaded o w1 w2 :
  loaded w1 = loaded w2 →
  (run_op o w1).1 = (run_op o w2).1 ∧
  (((run_op o w1).2 = w1 ∧ (run_op o w2).2 = w2)
   ∨ ∃ s, (run_op o w1).2 = saved s w1 ∧ (run_op o w2).2 = saved s w2).
Proof.
  intros Heq. destruct (loaded w1) as [state|] eqn:Hl1; symmetry in Heq.
  2: { apply loaded_none in Hl1 as [e1 He1]. apply loaded_none in Heq as [e2 He2].
       rewrite (run_op_load_raised _ _ _ He1), (run_op_load_raised _ _ _ He2). cbn.
       split; [|by left].
       by rewrite (load_raised_type_error _ _ _ He1),
                  (load_raised_type_error _ _ _ He2). }
  apply loaded_load in Hl1, Heq.
  destruct (run_op o w1) as [r1 w1'] eqn:E1.
  destruct (run_op o w2) as [r2 w2'] eqn:E2. cbn [fst snd].
  destruct o; cbn [run_op] in E1, E2;
    [ unfold initialize_player in E1, E2 | unfold add_to_inventory in E1, E2
    | unfold start_combat in E1, E2 | unfold apply_damage in E1, E2
    | unfold end_combat in E1, E2 ];
    rewrite (bind_returned _ _ _ _ _ Hl1) in E1;
    rewrite (bind_returned _ _ _ _ _ Heq) in E2;
    run_in E1; replay E2;
    injection E2 as <- <-;
    (split; [done|]); first [by left | by right; eexists].
Qed.

Lemma loaded_file w1 w2 : file w1 = file w2 → loaded w1 = loaded w2.
Proof.
  intros H. unfold loaded, _load_state. rewrite H.
  destruct (file w2) as [[|j]|]; try done.
  destruct (negb (truthy j)); [done|].
  by destruct (py_contains "player" j) as [[]|].
Qed.

(** X7.  Two worlds in which the loader returns the same thing are the same
    to every tool: the call returns or raises the same, it either leaves
    both files alone or writes the same document to both, and afterwards
    the loader again returns the same in both.  In particular a file that
    made the loader fall back is treated as if it were absent, and the
    first save replaces its contents. *)
Theorem X7_file_matters_only_through_load o w1 w2 :
  loaded w1 = loaded w2 →
  (run_op o w1).1 = (run_op o w2).1 ∧
  ((file (run_op o w1).2 = file w1 ∧ file (run_op o w2).2 = file w2)
   ∨ file (run_op o w1).2 = file (run_op o w2).2) ∧
  loaded (run_op o w1).2 = loaded (run_op o w2).2.
Proof.
  intros Heq.
  destruct (run_op_same_loaded o w1 w2 Heq) as [Hr [[-> ->]|(s & -> & ->)]].
  - split; [done|]. split; [by left|done].
  - split; [done|]. split; [by right|]. by apply loaded_file.
Qed.

Lemma X7_file_matters_witness :
  (run_op (AddToInventory ["Rope"])
     {| file := Some (Document (JObj {[ "inventory" := JList [JStr "Gem"] ]}));
        writes := 4 |}).1
  = (run_op (AddToInventory ["Rope"]) {| file := None; writes := 0 |}).1 ∧
  ((file (run_op (AddToInventory ["Rope"])
            {| file := Some (Document (JObj {[ "inventory" := JList [JStr "Gem"] ]}));
               writes := 4 |}).2
    = file {| file := Some (Document (JObj {[ "inventory" := JList [JStr "Gem"] ]}));
              writes := 4 |} ∧
    file (run_op (AddToInventory ["Rope"]) {| file := None; writes := 0 |}).2
    = file {| file := None; writes := 0 |})
   ∨ file (run_op (AddToInventory ["Rope"])
             {| file := Some (Document (JObj {[ "inventory" := JList [JStr "Gem"] ]}));
                writes := 4 |}).2
     = file (run_op (AddToInventory ["Rope"]) {| file := None; writes := 0 |}).2) ∧
  loaded (run_op (AddToInventory ["Rope"])
            {| file := Some (Document (JObj {[ "inventory" := JList [JStr "Gem"] ]}));
               writes := 4 |}).2
  = loaded (run_op (AddToInventory ["Rope"]) {| file := None; writes := 0 |}).2.
Proof.
  apply (X7_file_matters_only_through_load (AddToInventory ["Rope"])
           {| file := Some (Document (JObj {[ "inventory" := JList [JStr "Gem"] ]}));
              writes := 4 |}
           {| file := None; writes := 0 |}).
  vm_compute. reflexivity.
Defined.

(* ===================================================================== *)
(** ** [initialize_player] *)
(* ===================================================================== *)

(** The dictionary literal of [initialize_player]. *)
Lemma sheet_lookup name race char_class background max_hp ac k :
  list_to_map (M := gmap string json)
    [("name", JStr name); ("race", JStr race);
     ("class", JStr char_class); ("background", JStr background);
     ("hp", JInt max_hp); ("max_hp", JInt max_hp); ("ac", JInt ac)] !! k
  = if decide (k = "name") then Some (JStr name)
    else if decide (k = "race") then Some (JStr race)
    else if decide (k = "class") then Some (JStr char_class)
    else if decide (k = "background") then Some (JStr background)
    else if decide (k = "hp") then Some (JInt max_hp)
    else if decide (k = "max_hp") then Some (JInt max_hp)
    else if decide (k = "ac") then Some (JInt ac)
    else None.
Proof.
  cbn [list_to_map foldr fst snd uncurry].
  repeat (case_decide; [subst; by rewrite ?lookup_insert_ne, ?lookup_insert_eq by done|]).
  by rewrite !lookup_insert_ne, lookup_empty by done.
Qed.

Lemma initialize_player_run w st p name race char_class background max_hp ac :
  loaded w = Some (JObj st) →
  st !! "player" = Some (JObj p) →
  initialize_player name race char_class background max_hp ac w
  = (Returned ("Player " +:+ name +:+ " (Race: " +:+ race +:+ ", Class: "
               +:+ char_class +:+ ") initialized with " +:+ pretty max_hp
               +:+ " HP and " +:+ pretty ac +:+ " AC."),
     saved (JObj (<["player" :=
                      JObj (list_to_map
                              [("name", JStr name); ("race", JStr race);
                               ("class", JStr char_class);
                               ("background", JStr background);
                               ("hp", JInt max_hp); ("max_hp", JInt max_hp);
                               ("ac", JInt ac)] ∪ p)]> st)) w).
Proof.
  intros Hl Hp. apply loaded_load in Hl. unfold initialize_player.
  rewrite (bind_returned _ _ _ _ _ Hl). by run_goal.
Qed.

(** X8.  On a loaded record with a player record, [initialize_player]
    saves the record with the seven fields of the sheet overwritten ([hp]
    and [max_hp] both get [max_hp]; no range is checked) and every other
    field of the player, such as [location], kept; it returns the
    confirmation with the name, race, class, HP and AC. *)
Theorem X8_initialize_player w st p name race char_class background max_hp ac :
  loaded w = Some (JObj st) →
  st !! "player" = Some (JObj p) →
  ∃ p',
    initialize_player name race char_class background max_hp ac w
    = (Returned ("Player " +:+ name +:+ " (Race: " +:+ race +:+ ", Class: "
                 +:+ char_class +:+ ") initialized with " +:+ pretty max_hp
                 +:+ " HP and " +:+ pretty ac +:+ " AC."),
       saved (JObj (<["player" := JObj p']> st)) w) ∧
    p' !! "name" = Some (JStr name) ∧
    p' !! "race" = Some (JStr race) ∧
    p' !! "class" = Some (JStr char_class) ∧
    p' !! "background" = Some (JStr background) ∧
    p' !! "hp" = Some (JInt max_hp) ∧
    p' !! "max_hp" = Some (JInt max_hp) ∧
    p' !! "ac" = Some (JInt ac) ∧
    ∀ k, k ∉ ["name"; "race"; "class"; "background"; "hp"; "max_hp"; "ac"] →
         p' !! k = p !! k.
Proof.
  intros Hl Hp. eexists. split; [by apply initialize_player_run|].
  repeat split;
    try (apply lookup_union_Some_l; by rewrite sheet_lookup).
  intros k Hk. apply lookup_union_r. rewrite sheet_lookup.
  repeat (case_decide; [subst; exfalso; apply Hk; set_solver|]). done.
Qed.

Lemma X8_initialize_player_witness :
  ∃ p',
    initialize_player "Ann" "Elf" "Bard" "Sage" 8 12 {| file := None; writes := 0 |}
    = (Returned "Player Ann (Race: Elf, Class: Bard) initialized with 8 HP and 12 AC.",
       saved (JObj (<["player" := JObj p']> default_record))
         {| file := None; writes := 0 |}) ∧
    p' !! "name" = Some (JStr "Ann") ∧
    p' !! "race" = Some (JStr "Elf") ∧
    p' !! "class" = Some (JStr "Bard") ∧
    p' !! "background" = Some (JStr "Sage") ∧
    p' !! "hp" = Some (JInt 8) ∧
    p' !! "max_hp" = Some (JInt 8) ∧
    p' !! "ac" = Some (JInt 12) ∧
    ∀ k, k ∉ ["name"; "race"; "class"; "background"; "hp"; "max_hp"; "ac"] →
         p' !! k = default_player !! k.
Proof.
  apply (X8_initialize_player {| file := None; writes := 0 |} default_record
           default_player "Ann" "Elf" "Bard" "Sage" 8 12).
  - reflexivity.
  - reflexivity.
Defined.

(** A later sheet covers an earlier one. *)
Lemma sheet_union_sheet n1 r1 c1 b1 h1 a1 n2 r2 c2 b2 h2 a2 (p : gmap string json) :
  list_to_map
    [("name", JStr n2); ("race", JStr r2); ("class", JStr c2);
     ("background", JStr b2); ("hp", JInt h2); ("max_hp", JInt h2); ("ac", JInt a2)]
  ∪ (list_to_map
       [("name", JStr n1); ("race", JStr r1); ("class", JStr c1);
        ("background", JStr b1); ("hp", JInt h1); ("max_hp", JInt h1);
        ("ac", JInt a1)] ∪ p)
  = list_to_map
      [("name", JStr n2); ("race", JStr r2); ("class", JStr c2);
       ("background", JStr b2); ("hp", JInt h2); ("max_hp", JInt h2); ("ac", JInt a2)]
    ∪ p.
Proof.
  apply map_eq. intros k. rewrite !lookup_union, !sheet_lookup.
  repeat (case_decide; [by destruct (p !! k)|]). by destruct (p !! k).
Qed.

(** X9.  Of two calls of [initialize_player] in a row the second one wins:
    the loader returns afterwards what it returns after the second call
    alone, whatever the file held. *)
Theorem X9_initialize_player_twice w n1 r1 c1 b1 h1 a1 n2 r2 c2 b2 h2 a2 :
  loaded (exec [InitializePlayer n1 r1 c1 b1 h1 a1;
                InitializePlayer n2 r2 c2 b2 h2 a2] w)
  = loaded (exec [InitializePlayer n2 r2 c2 b2 h2 a2] w).
Proof.
  rewrite exec_cons.
  destruct (run_op_outcome (InitializePlayer n1 r1 c1 b1 h1 a1) w)
    as [[e ->]|[[_ (t & d & [=] & _)]|(msg & st & st' & Hl & Hs & ->)]]; [done|].
  cbn [snd exec foldl run_op].
  inversion Hs as [? ? ? ? ? ? ? p Hp| | | | |]; subst.
  erewrite initialize_player_run; [| |apply lookup_insert_eq].
  2: { apply save_load. rewrite lookup_insert_eq. by eexists. }
  erewrite (initialize_player_run w); [|done..]. cbn [snd].
  apply loaded_file. cbn [saved file].
  by rewrite insert_insert_eq, sheet_union_sheet.
Qed.

(* ===================================================================== *)
(** ** [start_combat] and [end_combat] *)
(* ===================================================================== *)

Lemma start_combat_run w st c enemies :
  loaded w = Some (JObj st) →
  st !! "combat" = Some (JObj c) →
  start_combat enemies w
  = (Returned ("Combat started with: " +:+ String.concat ", " enemies.*1 +:+ "."),
     saved (JObj (<["combat" :=
                      JObj (<["enemies" := JObj (JInt <$> list_to_map enemies)]>
                              (<["active" := JBool true]> c))]> st)) w).
Proof.
  intros Hl Hc. apply loaded_load in Hl. unfold start_combat.
  rewrite (bind_returned _ _ _ _ _ Hl). by run_goal.
Qed.

Lemma end_combat_run w st c :
  loaded w = Some (JObj st) →
  st !! "combat" = Some (JObj c) →
  end_combat w
  = (Returned "Combat ended manually.",
     saved (JObj (<["combat" :=
                      JObj (<["enemies" := JObj ∅]> (<["active" := JBool false]> c))]>
                    st)) w).
Proof.
  intros Hl Hc. apply loaded_load in Hl. unfold end_combat.
  rewrite (bind_returned _ _ _ _ _ Hl). by run_goal.
Qed.

(** X10.  On a loaded record with a combat record, [start_combat] saves the
    record with [active] set to [True] and [enemies] replaced by the
    argument: when the names are distinct, the new mapping holds exactly the
    listed names with their HP, and nothing of the old mapping.  The other
    fields of the combat record are kept, and the message lists the names
    in the order given. *)
Theorem X10_start_combat w st c enemies :
  loaded w = Some (JObj st) →
  st !! "combat" = Some (JObj c) →
  NoDup enemies.*1 →
  ∃ c' e',
    start_combat enemies w
    = (Returned ("Combat started with: " +:+ String.concat ", " enemies.*1 +:+ "."),
       saved (JObj (<["combat" := JObj c']> st)) w) ∧
    c' !! "active" = Some (JBool true) ∧
    c' !! "enemies" = Some (JObj e') ∧
    (∀ k v, e' !! k = Some v ↔ ∃ h, v = JInt h ∧ (k, h) ∈ enemies) ∧
    ∀ k, k ≠ "active" → k ≠ "enemies" → c' !! k = c !! k.
Proof.
  intros Hl Hc Hnd. eexists _, _. split; [by apply start_combat_run|].
  split; [by rewrite lookup_insert_ne, lookup_insert_eq|].
  split; [apply lookup_insert_eq|]. split.
  - intros k v. rewrite lookup_fmap, fmap_Some. split.
    + intros (h & Hh & ->). exists h. split; [done|].
      by apply elem_of_list_to_map.
    + intros (h & -> & Hin). exists h. split; [|done].
      by apply elem_of_list_to_map.
  - intros k Ha He. by rewrite !lookup_insert_ne.
Qed.

Lemma X10_start_combat_witness :
  ∃ c' e',
    start_combat [("Goblin 1", 7); ("Wolf Leader", 15)]
      {| file := Some (Document (JObj goblin_state)); writes := 1 |}
    = (Returned "Combat started with: Goblin 1, Wolf Leader.",
       saved (JObj (<["combat" := JObj c']> goblin_state))
         {| file := Some (Document (JObj goblin_state)); writes := 1 |}) ∧
    c' !! "active" = Some (JBool true) ∧
    c' !! "enemies" = Some (JObj e') ∧
    (∀ k v, e' !! k = Some v
            ↔ ∃ h, v = JInt h ∧ (k, h) ∈ [("Goblin 1", 7); ("Wolf Leader", 15)]) ∧
    ∀ k, k ≠ "active" → k ≠ "enemies" →
         c' !! k
         = ({[ "active" := JBool true; "round" := JInt 0;
               "initiative_order" := JList [];
               "enemies" := JObj {[ "Goblin" := JInt 7 ]} ]} : gmap string json) !! k.
Proof.
  apply (X10_start_combat
           {| file := Some (Document (JObj goblin_state)); writes := 1 |}
           goblin_state
           {[ "active" := JBool true; "round" := JInt 0;
              "initiative_order" := JList [];
              "enemies" := JObj {[ "Goblin" := JInt 7 ]} ]}
           [("Goblin 1", 7); ("Wolf Leader", 15)]).
  - vm_compute. reflexivity.
  - vm_compute. reflexivity.
  - apply (bool_decide_unpack _). vm_compute. exact I.
Defined.

(** X11.  On a loaded record with a combat record, [end_combat] saves the
    record with [active] set to [False] and [enemies] emptied, whatever they
    were, keeps the other fields of the combat record, and returns its
    confirmation. *)
Theorem X11_end_combat w st c :
  loaded w = Some (JObj st) →
  st !! "combat" = Some (JObj c) →
  ∃ c',
    end_combat w
    = (Returned "Combat ended manually.", saved (JObj (<["combat" := JObj c']> st)) w) ∧
    c' !! "active" = Some (JBool false) ∧
    c' !! "enemies" = Some (JObj ∅) ∧
    ∀ k, k ≠ "active" → k ≠ "enemies" → c' !! k = c !! k.
Proof.
  intros Hl Hc. eexists. split; [by apply end_combat_run|].
  split; [by rewrite lookup_insert_ne, lookup_insert_eq|].
  split; [apply lookup_insert_eq|].
  intros k Ha He. by rewrite !lookup_insert_ne.
Qed.

Lemma X11_end_combat_witness :
  ∃ c',
    end_combat {| file := Some (Document (JObj goblin_state)); writes := 1 |}
    = (Returned "Combat ended manually.",
       saved (JObj (<["combat" := JObj c']> goblin_state))
         {| file := Some (Document (JObj goblin_state)); writes := 1 |}) ∧
    c' !! "active" = Some (JBool false) ∧
    c' !! "enemies" = Some (JObj ∅) ∧
    ∀ k, k ≠ "active" → k ≠ "enemies" →
         c' !! k
         = ({[ "active" := JBool true; "round" := JInt 0;
               "initiative_order" := JList [];
               "enemies" := JObj {[ "Goblin" := JInt 7 ]} ]} : gmap string json) !! k.
Proof.
  apply (X11_end_combat
           {| file := Some (Document (JObj goblin_state)); writes := 1 |}
           goblin_state
           {[ "active" := JBool true; "round" := JInt 0;
              "initiative_order" := JList [];
              "enemies" := JObj {[ "Goblin" := JInt 7 ]} ]}).
  - vm_compute. reflexivity.
  - vm_compute. reflexivity.
Defined.

Lemma reset_after_reset (c : gmap string json) a1 e1 a2 e2 :
  <["enemies" := e2]> (<["active" := a2]> (<["enemies" := e1]> (<["active" := a1]> c)))
  = <["enemies" := e2]> (<["active" := a2]> c).
Proof.
  apply map_eq. intros k. rewrite !lookup_insert. by repeat case_decide.
Qed.

(** X12.  [start_combat] and [end_combat] overwrite what an earlier
    [start_combat] or [end_combat] left: after two of them in a row the
    loader returns what it returns after the second alone. *)
Theorem X12_combat_reset_twice o1 o2 w :
  resets_combat o1 → resets_combat o2 →
  loaded (exec [o1; o2] w) = loaded (exec [o2] w).
Proof.
  intros H1 H2. rewrite exec_cons.
  destruct (run_op_outcome o1 w)
    as [[e ->]|[[_ (t & d & -> & _)]|(msg & st & st' & Hl & Hs & ->)]];
    [done|done|].
  cbn [snd exec foldl].
  assert (∃ c a1 e1, st !! "combat" = Some (JObj c) ∧
                     st' = <["combat" := JObj (<["enemies" := e1]> (<["active" := a1]> c))]> st)
    as (c & a1 & e1 & Hc & ->).
  { inversion Hs; subst; try done; eauto. }
  assert (loaded (saved (JObj (<["combat" :=
             JObj (<["enemies" := e1]> (<["active" := a1]> c))]> st)) w)
          = Some (JObj (<["combat" :=
             JObj (<["enemies" := e1]> (<["active" := a1]> c))]> st))) as Hl'.
  { apply save_load. rewrite lookup_insert_ne by done. by eapply loaded_obj_player. }
  destruct o2; try done; cbn [run_op].
  - erewrite start_combat_run; [|done|apply lookup_insert_eq].
    erewrite (start_combat_run w); [|done..]. cbn [snd].
    apply loaded_file. cbn [saved file].
    by rewrite insert_insert_eq, reset_after_reset.
  - erewrite end_combat_run; [|done|apply lookup_insert_eq].
    erewrite (end_combat_run w); [|done..]. cbn [snd].
    apply loaded_file. cbn [saved file].
    by rewrite insert_insert_eq, reset_after_reset.
Qed.

Lemma X12_combat_reset_twice_witness :
  loaded (exec [StartCombat [("Goblin", 7)]; EndCombat] {| file := None; writes := 0 |})
  = loaded (exec [EndCombat] {| file := None; writes := 0 |}).
Proof.
  apply (X12_combat_reset_twice (StartCombat [("Goblin", 7)]) EndCombat
           {| file := None; writes := 0 |}); exact I.
Defined.

(* ===================================================================== *)
(** ** More on [apply_damage] *)
(* ===================================================================== *)

Lemma apply_damage_player_run w st p old_hp new_hp target d :
  loaded w = Some (JObj st) →
  st !! "player" = Some (JObj p) →
  p !! "hp" = Some old_hp →
  py_sub old_hp d = Returned new_hp →
  lower target = "player" →
  apply_damage target d w
  = (Returned (player_damage_msg d old_hp new_hp),
     saved (JObj (<["player" := JObj (<["hp" := JInt new_hp]> p)]> st)) w).
Proof.
  intros Hl Hp Hh Hsub Ht. apply loaded_load in Hl.
  unfold apply_damage. rewrite (bind_returned _ _ _ _ _ Hl), Ht.
  run_goal. rewrite Hsub. by run_goal.
Qed.

Lemma apply_damage_enemy_run w st c a e target old_hp new_hp d :
  loaded w = Some (JObj st) →
  st !! "combat" = Some (JObj c) →
  c !! "active" = Some a → truthy a = true →
  c !! "enemies" = Some (JObj e) →
  e !! target = Some old_hp →
  py_sub old_hp d = Returned new_hp →
  lower target ≠ "player" →
  ∃ msg,
    apply_damage target d w
    = (Returned msg,
       saved (JObj (<["combat" := JObj (damaged_combat c e target new_hp)]> st)) w).
Proof.
  intros Hl Hc Ha Hta He Hh Hsub Ht. apply loaded_load in Hl.
  apply String.eqb_neq in Ht.
  unfold apply_damage, damaged_combat. rewrite (bind_returned _ _ _ _ _ Hl).
  run_goal. rewrite Hsub.
  destruct (new_hp <=? 0) eqn:Hle; [destruct (dict_empty (delete target e)) eqn:Hd|];
    eexists; by run_goal.
Qed.

Lemma apply_damage_inactive_run w st c a target d :
  loaded w = Some (JObj st) →
  st !! "combat" = Some (JObj c) →
  c !! "active" = Some a → truthy a = false →
  lower target ≠ "player" →
  apply_damage target d w = (Returned (target_not_found_msg target), w).
Proof.
  intros Hl Hc Ha Hta Ht. apply loaded_load in Hl. apply String.eqb_neq in Ht.
  unfold apply_damage. rewrite (bind_returned _ _ _ _ _ Hl). by run_goal.
Qed.

Lemma apply_damage_unknown_run w st c e target d :
  loaded w = Some (JObj st) →
  st !! "combat" = Some (JObj c) →
  c !! "enemies" = Some (JObj e) →
  e !! target = None →
  lower target ≠ "player" →
  apply_damage target d w = (Returned (target_not_found_msg target), w).
Proof.
  intros Hl Hc He Hh Ht. apply loaded_load in Hl. apply String.eqb_neq in Ht.
  unfold apply_damage. rewrite (bind_returned _ _ _ _ _ Hl). run_goal.
  destruct (truthy (default JNull (c !! "active"))); by run_goal.
Qed.

Lemma damaged_combat_enemies c e target new_hp :
  damaged_combat c e target new_hp !! "enemies"
  = Some (JObj (if new_hp <=? 0 then delete target e
                else <[target := JInt new_hp]> e)).
Proof.
  unfold damaged_combat.
  destruct (new_hp <=? 0); [destruct (dict_empty _)|];
    by rewrite ?lookup_insert_eq, ?lookup_insert_ne, ?lookup_insert_eq by done.
Qed.

(** X13.  Damage to an enemy touches that enemy only: in the saved record
    every other enemy has the HP it had, and the player record and the
    inventory are the ones loaded. *)
Theorem X13_enemy_damage_frame w st c a e target h d :
  loaded w = Some (JObj st) →
  st !! "combat" = Some (JObj c) →
  c !! "active" = Some a → truthy a = true →
  c !! "enemies" = Some (JObj e) →
  e !! target = Some (JInt h) →
  lower target ≠ "player" →
  ∃ msg st' c' e',
    apply_damage target d w = (Returned msg, saved (JObj st') w) ∧
    st' !! "combat" = Some (JObj c') ∧
    c' !! "enemies" = Some (JObj e') ∧
    (∀ k, k ≠ target → e' !! k = e !! k) ∧
    st' !! "player" = st !! "player" ∧
    st' !! "inventory" = st !! "inventory".
Proof.
  intros Hl Hc Ha Hta He Hh Ht.
  destruct (apply_damage_enemy_run w st c a e target (JInt h) (h - d) d)
    as [msg Hrun]; try done.
  eexists msg, _, _, _. split; [exact Hrun|].
  split; [apply lookup_insert_eq|]. split; [apply damaged_combat_enemies|].
  split; [|by rewrite !lookup_insert_ne].
  intros k Hk. destruct (h - d <=? 0).
  - by rewrite lookup_delete_ne.
  - by rewrite lookup_insert_ne.
Qed.

Lemma X13_enemy_damage_frame_witness :
  ∃ msg st' c' e',
    apply_damage "Goblin" 3
      {| file := Some (Document (JObj goblin_state)); writes := 1 |}
    = (Returned msg,
       saved (JObj st') {| file := Some (Document (JObj goblin_state)); writes := 1 |}) ∧
    st' !! "combat" = Some (JObj c') ∧
    c' !! "enemies" = Some (JObj e') ∧
    (∀ k, k ≠ "Goblin" → e' !! k = ({[ "Goblin" := JInt 7 ]} : gmap string json) !! k) ∧
    st' !! "player" = goblin_state !! "player" ∧
    st' !! "inventory" = goblin_state !! "inventory".
Proof.
  apply (X13_enemy_damage_frame
           {| file := Some (Document (JObj goblin_state)); writes := 1 |}
           goblin_state
           {[ "active" := JBool true; "round" := JInt 0;
              "initiative_order" := JList [];
              "enemies" := JObj {[ "Goblin" := JInt 7 ]} ]}
           (JBool true) {[ "Goblin" := JInt 7 ]} "Goblin" 7 3).
  - vm_compute. reflexivity.
  - vm_compute. reflexivity.
  - vm_compute. reflexivity.
  - vm_compute. reflexivity.
  - vm_compute. reflexivity.
  - vm_compute. reflexivity.
  - vm_compute. discriminate.
Defined.

(** X14.  Once an enemy has died its name is unknown: a second hit on it
    returns the not-found error and changes nothing, whether or not the
    fight went on. *)
Theorem X14_hit_after_death w st c a e target h d d' :
  loaded w = Some (JObj st) →
  st !! "combat" = Some (JObj c) →
  c !! "active" = Some a → truthy a = true →
  c !! "enemies" = Some (JObj e) →
  e !! target = Some (JInt h) →
  lower target ≠ "player" →
  h - d ≤ 0 →
  apply_damage target d' (apply_damage target d w).2
  = (Returned ("Error: Target '" +:+ target +:+ "' not found in active combat."),
     (apply_damage target d w).2).
Proof.
  intros Hl Hc Ha Hta He Hh Ht Hle.
  destruct (apply_damage_enemy_run w st c a e target (JInt h) (h - d) d)
    as [msg Hrun]; try done.
  rewrite Hrun. cbn [snd].
  eapply apply_damage_unknown_run; [| | | |done].
  - apply save_load. rewrite lookup_insert_ne by done. by eapply loaded_obj_player.
  - apply lookup_insert_eq.
  - apply damaged_combat_enemies.
  - apply Z.leb_le in Hle. rewrite Hle. apply lookup_delete_eq.
Qed.

Lemma X14_hit_after_death_witness :
  apply_damage "Goblin" 1
    (apply_damage "Goblin" 9
       {| file := Some (Document (JObj goblin_state)); writes := 1 |}).2
  = (Returned "Error: Target 'Goblin' not found in active combat.",
     (apply_damage "Goblin" 9
        {| file := Some (Document (JObj goblin_state)); writes := 1 |}).2).
Proof.
  apply (X14_hit_after_death
           {| file := Some (Document (JObj goblin_state)); writes := 1 |}
           goblin_state
           {[ "active" := JBool true; "round" := JInt 0;
              "initiative_order" := JList [];
              "enemies" := JObj {[ "Goblin" := JInt 7 ]} ]}
           (JBool true) {[ "Goblin" := JInt 7 ]} "Goblin" 7 9 1).
  - vm_compute. reflexivity.
  - vm_compute. reflexivity.
  - vm_compute. reflexivity.
  - vm_compute. reflexivity.
  - vm_compute. reflexivity.
  - vm_compute. reflexivity.
  - vm_compute. discriminate.
  - lia.
Defined.

(** X15.  Hits on the player add up: after any number of hits on a player
    with integer HP [h] the loader returns the record with HP [h] minus the
    sum of the damages, below zero if it comes to that; the other fields are
    the ones loaded at the start. *)
Theorem X15_player_damage_adds_up ds w st p h target :
  loaded w = Some (JObj st) →
  st !! "player" = Some (JObj p) →
  p !! "hp" = Some (JInt h) →
  lower target = "player" →
  loaded (exec (ApplyDamage target <$> ds) w)
  = Some (JObj (<["player" := JObj (<["hp" := JInt (h - foldr Z.add 0 ds)]> p)]> st)).
Proof.
  intros Hl Hp Hh Ht. revert w st p h Hl Hp Hh.
  induction ds as [|d ds IH]; intros w st p h Hl Hp Hh.
  { cbn. by rewrite Z.sub_0_r, (insert_id p), (insert_id st). }
  rewrite fmap_cons, exec_cons. cbn [run_op].
  rewrite (apply_damage_player_run w st p (JInt h) (h - d) target d) by done.
  cbn [snd].
  rewrite (IH _ (<["player" := JObj (<["hp" := JInt (h - d)]> p)]> st)
              (<["hp" := JInt (h - d)]> p) (h - d)).
  - rewrite !insert_insert_eq. cbn [foldr].
    by replace (h - d - foldr Z.add 0 ds) with (h - (d + foldr Z.add 0 ds)) by lia.
  - apply save_load. rewrite lookup_insert_eq. by eexists.
  - apply lookup_insert_eq.
  - apply lookup_insert_eq.
Qed.

Lemma X15_player_damage_witness :
  loaded (exec (ApplyDamage "Player" <$> [3; 4; 5])
            {| file := Some (Document (JObj goblin_state)); writes := 1 |})
  = Some (JObj (<["player" := JObj (<["hp" := JInt (0 - foldr Z.add 0 [3; 4; 5])]>
                                      default_player)]> goblin_state)).
Proof.
  apply (X15_player_damage_adds_up [3; 4; 5]
           {| file := Some (Document (JObj goblin_state)); writes := 1 |}
           goblin_state default_player 0 "Player").
  - vm_compute. reflexivity.
  - vm_compute. reflexivity.
  - vm_compute. reflexivity.
  - vm_compute. reflexivity.
Defined.

(** X16.  A player or enemy HP that is neither an integer nor a boolean
    ([null], a string, a list, a record) makes the subtraction a
    [TypeError]: the call raises and writes nothing. *)
Theorem X16_non_numeric_hp w st v target d :
  loaded w = Some (JObj st) →
  (∀ n, v ≠ JInt n) → (∀ b, v ≠ JBool b) →
  (∀ p, st !! "player" = Some (JObj p) → p !! "hp" = Some v →
        lower target = "player" →
        apply_damage target d w = (Raised TypeError, w)) ∧
  (∀ c a e, st !! "combat" = Some (JObj c) →
            c !! "active" = Some a → truthy a = true →
            c !! "enemies" = Some (JObj e) → e !! target = Some v →
            lower target ≠ "player" →
            apply_damage target d w = (Raised TypeError, w)).
Proof.
  intros Hl Hn Hb. apply loaded_load in Hl.
  assert (py_sub v d = Raised TypeError) as Hsub.
  { destruct v as [|b|n| | |]; try done; [by destruct (Hb b)|by destruct (Hn n)]. }
  split.
  - intros p Hp Hh Ht. unfold apply_damage.
    rewrite (bind_returned _ _ _ _ _ Hl), Ht. run_goal. by rewrite Hsub.
  - intros c a e Hc Ha Hta He Hh Ht. apply String.eqb_neq in Ht.
    unfold apply_damage. rewrite (bind_returned _ _ _ _ _ Hl).
    run_goal. by rewrite Hsub.
Qed.

Lemma X16_non_numeric_hp_witness :
  apply_damage "player" 2
    {| file := Some (Document (JObj {[ "player" := JObj {[ "hp" := JStr "ten" ]} ]}));
       writes := 0 |}
  = (Raised TypeError,
     {| file := Some (Document (JObj {[ "player" := JObj {[ "hp" := JStr "ten" ]} ]}));
        writes := 0 |}).
Proof.
  refine (proj1 (X16_non_numeric_hp
                   {| file := Some (Document
                                      (JObj {[ "player" := JObj {[ "hp" := JStr "ten" ]} ]}));
                      writes := 0 |}
                   {[ "player" := JObj {[ "hp" := JStr "ten" ]} ]}
                   (JStr "ten") "player" 2 _ _ _)
            {[ "hp" := JStr "ten" ]} _ _ _);
    first [reflexivity | intros; discriminate].
Defined.

(* ===================================================================== *)
(** ** More on [add_to_inventory] *)
(* ===================================================================== *)

Lemma add_to_inventory_run w st inv items :
  loaded w = Some (JObj st) →
  default (JList []) (st !! "inventory") = JList inv →
  add_to_inventory items w
  = (Returned ("Added to inventory: " +:+ String.concat ", " items),
     saved (JObj (<["inventory" := JList (inv ++ (JStr <$> items))]> st)) w).
Proof.
  intros Hl Hi. apply loaded_load in Hl. unfold add_to_inventory.
  rewrite (bind_returned _ _ _ _ _ Hl). cbn [py_get]. rewrite Hi. by run_goal.
Qed.

(** X17.  The edges of [add_to_inventory] on a loaded record: without an
    [inventory] key the inventory becomes the items; with an inventory that
    is no list the call raises [AttributeError] and writes nothing; and an
    empty list of items is accepted, the file being rewritten with the
    record as it was. *)
Theorem X17_add_to_inventory_edges w st items :
  loaded w = Some (JObj st) →
  match st !! "inventory" with
  | None =>
      add_to_inventory items w
      = (Returned ("Added to inventory: " +:+ String.concat ", " items),
         saved (JObj (<["inventory" := JList (JStr <$> items)]> st)) w)
  | Some (JList inv) =>
      add_to_inventory [] w = (Returned "Added to inventory: ", saved (JObj st) w)
  | Some _ => add_to_inventory items w = (Raised AttributeError, w)
  end.
Proof.
  intros Hl. destruct (st !! "inventory") as [j|] eqn:Hi.
  - destruct j as [| | | |inv|];
      try (apply loaded_load in Hl; unfold add_to_inventory;
           rewrite (bind_returned _ _ _ _ _ Hl); by run_goal).
    rewrite (add_to_inventory_run w st inv []) by (by rewrite ?Hi).
    by rewrite app_nil_r, (insert_id st).
  - by rewrite (add_to_inventory_run w st [] items) by (by rewrite ?Hi).
Qed.

Lemma X17_add_to_inventory_edges_witness :
  add_to_inventory ["Rope"]
    {| file := Some (Document (JObj {[ "player" := JObj ∅ ]})); writes := 0 |}
  = (Returned "Added to inventory: Rope",
     saved (JObj (<["inventory" := JList [JStr "Rope"]]> {[ "player" := JObj ∅ ]}))
       {| file := Some (Document (JObj {[ "player" := JObj ∅ ]})); writes := 0 |}).
Proof.
  assert (loaded {| file := Some (Document (JObj {[ "player" := JObj ∅ ]}));
                     writes := 0 |}
          = Some (JObj {[ "player" := JObj ∅ ]})) as Hl by reflexivity.
  exact (X17_add_to_inventory_edges _ _ ["Rope"] Hl).
Defined.

(** X18.  Two additions in a row leave what one addition of the
    concatenated items leaves, whatever the file held (when the first call
    raises, so do the other two). *)
Theorem X18_add_to_inventory_twice w xs ys :
  loaded (exec [AddToInventory xs; AddToInventory ys] w)
  = loaded (exec [AddToInventory (xs ++ ys)] w).
Proof.
  rewrite !exec_cons. cbn [exec foldl run_op].
  assert ((∃ e, ∀ items, add_to_inventory items w = (Raised e, w))
          ∨ (∃ st inv, loaded w = Some (JObj st)
                       ∧ default (JList []) (st !! "inventory") = JList inv))
    as [[e He]|(st & inv & Hl & Hi)].
  { destruct (loaded w) as [state|] eqn:Hl.
    2: { left. apply loaded_none in Hl as [e He]. exists e. intros items.
         by apply bind_raised. }
    apply loaded_load in Hl.
    destruct state as [| | | | |st];
      try (left; eexists; intros items; unfold add_to_inventory;
           by rewrite (bind_returned _ _ _ _ _ Hl)).
    destruct (st !! "inventory") as [j|] eqn:Hi.
    - destruct j as [| | | |inv|];
        try (left; eexists; intros items; unfold add_to_inventory;
             rewrite (bind_returned _ _ _ _ _ Hl); by run_goal).
      right. exists st, inv. by rewrite Hi.
    - right. exists st, []. by rewrite Hi. }
  - by rewrite !He.
  - rewrite (add_to_inventory_run w st inv xs), (add_to_inventory_run w st inv (xs ++ ys))
      by done. cbn [snd].
    erewrite add_to_inventory_run.
    + cbn [snd]. apply loaded_file. cbn [saved file].
      by rewrite insert_insert_eq, fmap_app, (assoc_L (++)).
    + apply save_load. rewrite lookup_insert_ne by done. by eapply loaded_obj_player.
    + by rewrite lookup_insert_eq.
Qed.

(* ===================================================================== *)
(** ** Listed enemies are alive *)
(* ===================================================================== *)

Lemma saves_enemies_alive o st st' :
  saves o st st' → starts_alive o →
  enemies_alive (JObj st) → enemies_alive (JObj st').
Proof.
  intros Hs Hok (st0 & c0 & e0 & [= <-] & Hc & He & Hpos).
  destruct Hs as [? ? ? ? ? ? st p Hp|items st inv Hi|enemies st c Hc'
                 |target damage st p old_hp new_hp Hp Hh Hsub
                 |target damage st c e old_hp new_hp Hc' Hact He' Hh Hsub
                 |st c Hc'].
  - eexists _, c0, e0. by rewrite lookup_insert_ne.
  - eexists _, c0, e0. by rewrite lookup_insert_ne.
  - eexists _, _, _. split; [done|]. split; [apply lookup_insert_eq|].
    split; [apply lookup_insert_eq|].
    intros k v. rewrite lookup_fmap, fmap_Some. intros (h & Hin & ->).
    exists h. split; [done|].
    apply elem_of_list_to_map_2 in Hin. cbn in Hok.
    rewrite Forall_forall in Hok. by apply (Hok (k, h)).
  - eexists _, c0, e0. by rewrite lookup_insert_ne.
  - rewrite Hc in Hc'. injection Hc' as <-.
    rewrite He in He'. injection He' as <-.
    eexists _, _, _. split; [done|]. split; [apply lookup_insert_eq|].
    split; [apply damaged_combat_enemies|].
    intros k v. destruct (new_hp <=? 0) eqn:Hle.
    + rewrite lookup_delete_Some. intros [_ Hk]. by eapply Hpos.
    + rewrite lookup_insert_Some. intros [[_ <-]|[_ Hk]]; [|by eapply Hpos].
      exists new_hp. split; [done|]. by apply Z.leb_gt.
  - eexists _, _, ∅. split; [done|]. split; [apply lookup_insert_eq|].
    split; [apply lookup_insert_eq|]. intros k v. by rewrite lookup_empty.
Qed.

(** X19.  As long as no fight is started with an enemy whose HP is zero or
    less, every enemy the loader shows has a positive integer HP: an enemy
    brought to zero or below is removed, never kept with its HP.  This
    holds from every state in which it holds, the default one among them. *)
Theorem X19_listed_enemies_are_alive ops w state :
  loaded w = Some state →
  enemies_alive state →
  Forall starts_alive ops →
  ∃ state', loaded (exec ops w) = Some state' ∧ enemies_alive state'.
Proof.
  revert w state. induction ops as [|o ops IH]; intros w state Hl Hinv Hok.
  { by exists state. }
  apply Forall_cons in Hok as [Ho Hok]. rewrite exec_cons.
  destruct (run_op_loaded o w) as [Hw|(st & st' & Hl' & Hs & _ & Hl'')].
  - rewrite Hw. by apply (IH w state).
  - apply (IH _ (JObj st')); [done| |done].
    apply (saves_enemies_alive o st); [done..|]. congruence.
Qed.

Lemma X19_listed_enemies_witness :
  ∃ state',
    loaded (exec [StartCombat [("Goblin", 7); ("Wolf", 15)];
                  ApplyDamage "Goblin" 7; ApplyDamage "Wolf" 6]
              {| file := None; writes := 0 |}) = Some state' ∧
    enemies_alive state'.
Proof.
  apply (X19_listed_enemies_are_alive
           [StartCombat [("Goblin", 7); ("Wolf", 15)];
            ApplyDamage "Goblin" 7; ApplyDamage "Wolf" 6]
           {| file := None; writes := 0 |} default_state).
  - reflexivity.
  - exists default_record, default_combat, ∅.
    split; [reflexivity|]. split; [reflexivity|]. split; [reflexivity|].
    intros k v Hk. rewrite lookup_empty in Hk. discriminate.
  - repeat constructor; cbn; lia.
Defined.
